(** * fsspec/spec.py: the abstract filesystem, its instance cache and the
    buffered file, as a shallow embedding.

    Python [str] and [bytes] are both modelled by [string] (a sequence of
    8-bit characters); Python integers by [Z]; a [dict] whose iteration
    order is observable by an insertion-ordered association list
    ([odict]), other dicts by [gmap]; a [set] by [gset]. Exceptions are
    values of [exn] carried by the result type [res]. *)

From Stdlib Require Import ZArith String Ascii List Bool Lia.
From stdpp Require Import base option list strings gmap sorting.

Local Open Scope string_scope.
Local Open Scope Z_scope.

(** ** Exceptions and results *)

(** The part of Python's exception hierarchy the module touches.
    [FileNotFoundError], [PermissionError] and [ConnectionError] are
    subclasses of [OSError] (of which [IOError] is an alias);
    [KeyboardInterrupt] derives from [BaseException] only. *)
Inductive exn : Type :=
| FileNotFoundError (path : string)
| PermissionError
| ConnectionError
| OSError (msg : string)
| NotImplementedError (msg : string)
| ValueError (msg : string)
| KeyError (key : string)
| AttributeError
| RuntimeError (msg : string)
| KeyboardInterrupt.

Global Instance exn_eq_dec : EqDecision exn.
Proof. solve_decision. Defined.

Definition is_OSError (e : exn) : bool :=
  match e with
  | FileNotFoundError _ | PermissionError | ConnectionError | OSError _ => true
  | _ => false
  end.

Definition is_FileNotFoundError (e : exn) : bool :=
  match e with FileNotFoundError _ => true | _ => false end.

(** Outcome of a call: a value or a raised exception. *)
Inductive res (A : Type) : Type :=
| Ok (a : A)
| Raise (e : exn).
Arguments Ok {A} a.
Arguments Raise {A} e.

Global Instance res_eq_dec {A} `{EqDecision A} : EqDecision (res A).
Proof. solve_decision. Defined.

Definition bind {A B} (m : res A) (k : A -> res B) : res B :=
  match m with
  | Ok a => k a
  | Raise e => Raise e
  end.

Notation "'let*' x := m 'in' k" := (bind m (fun x => k))
  (at level 10, x name, m at level 100, k at level 200).

(** [try: body except <classes>: handler], the classes given by the
    predicate [catches]. *)
Definition try_except {A} (body : res A) (catches : exn -> bool)
    (handler : exn -> res A) : res A :=
  match body with
  | Ok a => Ok a
  | Raise e => if catches e then handler e else Raise e
  end.

(** A bare [except:] catches whatever is raised. *)
Definition any_exception (e : exn) : bool := true.

(** Functions whose recursion is not bounded by their arguments take
    fuel; [None] is fuel exhausted. *)
Definition fueled (A : Type) : Type := option (res A).

Definition fbind {A B} (m : fueled A) (k : A -> fueled B) : fueled B :=
  match m with
  | Some (Ok a) => k a
  | Some (Raise e) => Some (Raise e)
  | None => None
  end.

Notation "'let+' x := m 'in' k" := (fbind m (fun x => k))
  (at level 10, x name, m at level 100, k at level 200).

Definition lift {A} (m : res A) : fueled A := Some m.

(** [[f(x) for x in l]] where [f] may raise. *)
Fixpoint mapM {A B} (f : A -> res B) (l : list A) : res (list B) :=
  match l with
  | [] => Ok []
  | x :: l' => let* y := f x in let* ys := mapM f l' in Ok (y :: ys)
  end.

(** A [for] loop threading its state through a body that may raise. *)
Fixpoint foldM {A S} (f : S -> A -> res S) (l : list A) (s : S) : res S :=
  match l with
  | [] => Ok s
  | x :: l' => let* s' := f s x in foldM f l' s'
  end.

(** [[x for x in l if p(x)]] where [p] may raise. *)
Fixpoint filterM {A} (p : A -> res bool) (l : list A) : res (list A) :=
  match l with
  | [] => Ok []
  | x :: l' =>
      let* b := p x in
      let* ys := filterM p l' in
      Ok (if b : bool then x :: ys else ys)
  end.

(** ** Python strings *)

Module PyStr.

Definition len (s : string) : Z := Z.of_nat (String.length s).

(** [s.startswith(pre)] *)
Definition startswith (s pre : string) : bool := String.prefix pre s.

(** [s[n:]] and [s[:n]] for a natural [n]. *)
Fixpoint drop (n : nat) (s : string) : string :=
  match n, s with
  | O, _ => s
  | S n', String _ s' => drop n' s'
  | S _, EmptyString => EmptyString
  end.

Fixpoint take (n : nat) (s : string) : string :=
  match n, s with
  | S n', String c s' => String c (take n' s')
  | _, _ => EmptyString
  end.

(** Python's reading of a slice bound: negative counts from the end,
    everything is clipped to [0, len]. *)
Definition clip (l i : Z) : Z :=
  if i <? 0 then Z.max 0 (l + i) else Z.min i l.

(** [s[lo:hi]] with either bound possibly omitted. *)
Definition slice (s : string) (lo hi : option Z) : string :=
  let a := match lo with Some i => clip (len s) i | None => 0 end in
  let b := match hi with Some i => clip (len s) i | None => len s end in
  take (Z.to_nat (b - a)) (drop (Z.to_nat a) s).

(** [c in chars] for a character. *)
Fixpoint mem_char (c : ascii) (chars : string) : bool :=
  match chars with
  | EmptyString => false
  | String d chars' => Ascii.eqb c d || mem_char c chars'
  end.

(** [s.rstrip(chars)]: drop the longest suffix made of characters of
    [chars]. *)
Fixpoint rstrip (chars : string) (s : string) : string :=
  match s with
  | EmptyString => EmptyString
  | String c s' =>
      match rstrip chars s' with
      | EmptyString => if mem_char c chars then EmptyString else String c EmptyString
      | r => String c r
      end
  end.

(** [s.lstrip(chars)] *)
Fixpoint lstrip (chars : string) (s : string) : string :=
  match s with
  | EmptyString => EmptyString
  | String c s' => if mem_char c chars then lstrip chars s' else s
  end.

(** [s.endswith(suf)] *)
Definition endswith (s suf : string) : bool :=
  (String.length suf <=? String.length s)%nat
  && String.eqb (drop (String.length s - String.length suf) s) suf.

(** [s.find(sub)]: index of the first occurrence, [-1] when absent. *)
Fixpoint find_from (i : Z) (sub s : string) : Z :=
  if String.prefix sub s then i
  else match s with
       | EmptyString => -1
       | String _ s' => find_from (i + 1) sub s'
       end.
Definition find (s sub : string) : Z := find_from 0 sub s.

(** [s.rfind(sub)]: index of the last occurrence, [-1] when absent. *)
Fixpoint rfind_from (i : Z) (sub s : string) : Z :=
  match s with
  | EmptyString => if String.prefix sub s then i else -1
  | String _ s' =>
      let r := rfind_from (i + 1) sub s' in
      if 0 <=? r then r else if String.prefix sub s then i else -1
  end.
Definition rfind (s sub : string) : Z := rfind_from 0 sub s.

(** [sub in s] *)
Definition contains (s sub : string) : bool := 0 <=? find s sub.

(** [s.rsplit(sep, 1)]: at most one split, at the last [sep]. *)
Definition rsplit1 (s sep : string) : list string :=
  let i := rfind s sep in
  if i <? 0 then [s]
  else [take (Z.to_nat i) s; drop (Z.to_nat i + String.length sep) s].

(** [s.count(sub)] and [s.replace(old, new)] for a non-empty pattern:
    occurrences are taken left to right and do not overlap; [skip]
    counts the characters of the current occurrence still to pass. *)
Fixpoint count_from (skip : nat) (sub s : string) : Z :=
  match s with
  | EmptyString => 0
  | String _ s' =>
      match skip with
      | S k => count_from k sub s'
      | O => if String.prefix sub s
             then 1 + count_from (String.length sub - 1) sub s'
             else count_from O sub s'
      end
  end.
Definition count (s sub : string) : Z := count_from O sub s.

Fixpoint replace_from (skip : nat) (old new s : string) : string :=
  match s with
  | EmptyString => EmptyString
  | String c s' =>
      match skip with
      | S k => replace_from k old new s'
      | O => if String.prefix old s
             then new ++ replace_from (String.length old - 1) old new s'
             else String c (replace_from O old new s')
      end
  end.
Definition replace (s old new : string) : string := replace_from O old new s.

(** [glob.has_magic]: the regular expression [[*?[]] has a match. *)
Fixpoint has_magic (s : string) : bool :=
  match s with
  | EmptyString => false
  | String c s' => mem_char c "*?[" || has_magic s'
  end.

(** Truthiness of a string, as in [path or root_marker]. *)
Definition or_else (s d : string) : string :=
  match s with EmptyString => d | _ => s end.

End PyStr.

(** ** Class attributes *)

(** [cls.protocol] is a string or a tuple of strings. *)
Inductive protocol_attr : Type :=
| ProtoStr (p : string)
| ProtoTuple (ps : list string).

Record fs_class : Type := {
  cachable : bool;
  protocol : protocol_attr;
  root_marker : string;
  blocksize : Z
}.

(** The attributes of [AbstractFileSystem] itself. *)
Definition AbstractFileSystem : fs_class :=
  {| cachable := true;
     protocol := ProtoStr "abstract";
     root_marker := "";
     blocksize := 2 ^ 22 |}.

(** ** Path utilities *)

Section paths.
Context (cls : fs_class).

(** [protos = (cls.protocol,) if isinstance(cls.protocol, str) else cls.protocol] *)
Definition protos : list string :=
  match protocol cls with
  | ProtoStr p => [p]
  | ProtoTuple ps => ps
  end.

(** One turn of the loop over [protos]. *)
Definition strip_one (path proto : string) : string :=
  if PyStr.startswith path (proto ++ "://")
  then PyStr.drop (String.length proto + 3) path
  else if PyStr.startswith path (proto ++ "::")
  then PyStr.drop (String.length proto + 2) path
  else path.

(** [_strip_protocol] on a single path. *)
Definition _strip_protocol (path : string) : string :=
  let path := fold_left strip_one protos path in
  let path := PyStr.rstrip "/" path in
  PyStr.or_else path (root_marker cls).

(** [_strip_protocol] on a list of paths. *)
Definition _strip_protocol_list (paths : list string) : list string :=
  map _strip_protocol paths.

(** [_parent] *)
Definition _parent (path : string) : string :=
  let path := _strip_protocol (PyStr.rstrip "/" path) in
  if PyStr.contains path "/"
  then
    let parent :=
      PyStr.lstrip (root_marker cls) (hd "" (PyStr.rsplit1 path "/")) in
    root_marker cls ++ parent
  else root_marker cls.

End paths.

(** ** Directory entries *)

(** The values found in an entry dict. *)
Inductive pyval : Type :=
| VNone
| VBool (b : bool)
| VInt (n : Z)
| VStr (s : string).

Global Instance pyval_eq_dec : EqDecision pyval.
Proof. solve_decision. Defined.

(** An entry ([info]) is a dict from field names to values; entries are
    never iterated, so a [gmap] models them. *)
Abbreviation entry := (gmap string pyval).

(** [o[key]] *)
Definition getitem (o : entry) (key : string) : res pyval :=
  match o !! key with
  | Some v => Ok v
  | None => Raise (KeyError key)
  end.

(** [v.rstrip("/")]: only a [str] has the method. *)
Definition val_rstrip (v : pyval) : res string :=
  match v with
  | VStr s => Ok (PyStr.rstrip "/" s)
  | _ => Raise AttributeError
  end.

(** [o["name"].rstrip("/")] *)
Definition stripped_name (o : entry) : res string :=
  let* v := getitem o "name" in val_rstrip v.

(** [{"name": path, "size": 0, "type": "directory"}] *)
Definition directory_entry (path : string) : entry :=
  {[ "name" := VStr path; "size" := VInt 0; "type" := VStr "directory" ]}.

(** ** Insertion-ordered dicts *)

Definition odict (K V : Type) : Type := list (K * V).

Section odict.
Context {K V : Type} `{EqDecision K}.

(** [d[k] = v]: an existing key keeps its place. *)
Fixpoint odict_set (k : K) (v : V) (d : odict K V) : odict K V :=
  match d with
  | [] => [(k, v)]
  | (k', v') :: d' =>
      if decide (k = k') then (k, v) :: d' else (k', v') :: odict_set k v d'
  end.

(** [d.get(k)] *)
Fixpoint odict_get (k : K) (d : odict K V) : option V :=
  match d with
  | [] => None
  | (k', v') :: d' => if decide (k = k') then Some v' else odict_get k d'
  end.

(** [d.update(d2)] *)
Definition odict_update (d d2 : odict K V) : odict K V :=
  fold_left (fun acc kv => odict_set (fst kv) (snd kv) acc) d2 d.

(** [list(d)] *)
Definition odict_keys (d : odict K V) : list K := map fst d.

(** [d.pop(k, default)]: the value and the dict without the key. *)
Definition odict_pop (k : K) (default : V) (d : odict K V) : V * odict K V :=
  (match odict_get k d with Some v => v | None => default end,
   filter (fun kv => fst kv <> k) d).
End odict.

(** [sorted(xs)] on strings: Python compares [str] by code point. *)
Definition sorted (xs : list string) : list string :=
  merge_sort String.le xs.

(** ** Generators *)

(** How a generator ends: by returning (the value travels in
    [StopIteration] and is not an item), by raising, or, in the model,
    by running out of fuel. *)
Inductive gen_end (R : Type) : Type :=
| StopIteration (value : option R)
| GenRaise (e : exn)
| GenOutOfFuel.
Arguments StopIteration {R} value.
Arguments GenRaise {R} e.
Arguments GenOutOfFuel {R}.

(** A generator run to its end: the items it yielded, in order, and how
    it ended. *)
Record gen (Y R : Type) : Type := {
  yielded : list Y;
  ending : gen_end R
}.
Arguments yielded {Y R} g.
Arguments ending {Y R} g.

(** [yield y] followed by the rest of the body. *)
Definition yield_then {Y R} (y : Y) (g : gen Y R) : gen Y R :=
  {| yielded := y :: yielded g; ending := ending g |}.

(** [return v] in a generator body. *)
Definition gen_return {Y R} (v : option R) : gen Y R :=
  {| yielded := []; ending := StopIteration v |}.

Definition gen_raise {Y R} (e : exn) : gen Y R :=
  {| yielded := []; ending := GenRaise e |}.

(** [for x in xs: yield from body(x)] *)
Fixpoint yield_from_each {A Y R} (body : A -> gen Y R) (xs : list A) : gen Y R :=
  match xs with
  | [] => gen_return None
  | x :: xs' =>
      let g := body x in
      match ending g with
      | StopIteration _ =>
          let g' := yield_from_each body xs' in
          {| yielded := yielded g ++ yielded g'; ending := ending g' |}
      | _ => g
      end
  end.

(** The items of [walk]: [(path, dirs, files)], with dicts when
    [detail] is set and with lists of names otherwise. *)
Inductive walk_item : Type :=
| WalkDetail (path : string) (dirs files : odict string entry)
| WalkNames (path : string) (dirs files : list string).

(** A path argument that is a [str] or a list of them. *)
Inductive path_arg : Type :=
| OnePath (p : string)
| PathList (ps : list string).

(** The one-character string holding a backslash. *)
Definition backslash : string := String (ascii_of_nat 92) EmptyString.

(** What [find] and [glob] return: names, or a dict when [detail]. *)
Inductive listing_out : Type :=
| Names (names : list string)
| Detail (d : odict string entry).

(** ** The filesystem: derived operations *)

Section derived.
Context (cls : fs_class).
(** The backend's [ls(path, detail=True)]. *)
Context (ls : string -> res (list entry)).
(** [re.compile(pattern)], giving the predicate [pattern.match]. *)
Context (re_compile : string -> res (string -> bool)).

Local Abbreviation strip := (_strip_protocol cls).

(** [[o for o in out if o["name"].rstrip("/") == path]] *)
Definition named (path : string) (out : list entry) : res (list entry) :=
  filterM (fun o => let* n := stripped_name o in Ok (String.eqb n path)) out.

(** [info] *)
Definition info (path : string) : res entry :=
  let path := strip path in
  let* out := ls (_parent cls path) in
  let* out := named path out in
  match out with
  | o :: _ => Ok o
  | [] =>
      let* out := ls path in
      let path := PyStr.rstrip "/" path in
      let* out1 := named path out in
      match out1 with
      | [o] =>
          match o !! "size" with
          | None => Ok (<["size" := VNone]> o)
          | Some _ => Ok o
          end
      | _ =>
          if (1 <? Z.of_nat (length out1)) || negb (bool_decide (out = []))
          then Ok (directory_entry path)
          else Raise (FileNotFoundError path)
      end
  end.

(** [exists] *)
Definition exists_ (path : string) : res bool :=
  try_except (let* _ := info path in Ok true)
             any_exception (fun _ => Ok false).

(** [isdir] *)
Definition isdir (path : string) : res bool :=
  try_except
    (let* i := info path in
     let* t := getitem i "type" in
     Ok (bool_decide (t = VStr "directory")))
    is_OSError (fun _ => Ok false).

(** [isfile] *)
Definition isfile (path : string) : res bool :=
  try_except
    (let* i := info path in
     let* t := getitem i "type" in
     Ok (bool_decide (t = VStr "file")))
    any_exception (fun _ => Ok false).

(** The body of the loop of [walk] over the listing; the state is
    [(full_dirs, dirs, files)]. *)
Definition walk_bucket (path : string)
    (st : odict string entry * odict string entry * odict string entry)
    (info : entry)
    : res (odict string entry * odict string entry * odict string entry) :=
  let '(full_dirs, dirs, files) := st in
  let* pathname := stripped_name info in
  let name := List.last (PyStr.rsplit1 pathname "/") "" in
  let* t := getitem info "type" in
  if bool_decide (t = VStr "directory") && negb (String.eqb pathname path)
  then Ok (odict_set pathname info full_dirs, odict_set name info dirs, files)
  else if String.eqb pathname path
  then Ok (full_dirs, dirs, odict_set "" info files)
  else Ok (full_dirs, dirs, odict_set name info files).

(** The triple of the [except] branch of [walk]. *)
Definition empty_item (detail : bool) (path : string) : walk_item :=
  if detail then WalkDetail path [] [] else WalkNames path [] [].

(** [walk], a generator. *)
Fixpoint walk (fuel : nat) (path : string) (maxdepth : option Z)
    (detail : bool) : gen walk_item walk_item :=
  match fuel with
  | O => {| yielded := []; ending := GenOutOfFuel |}
  | S fuel' =>
      let path := strip path in
      match ls path with
      | Raise e =>
          if is_FileNotFoundError e || is_OSError e
          then gen_return (Some (empty_item detail path))
          else gen_raise e
      | Ok listing =>
          match foldM (walk_bucket path) listing ([], [], []) with
          | Raise e => gen_raise e
          | Ok (full_dirs, dirs, files) =>
              let item :=
                if detail then WalkDetail path dirs files
                else WalkNames path (odict_keys dirs) (odict_keys files) in
              let descend (maxdepth : option Z) :=
                yield_from_each
                  (fun d => walk fuel' d maxdepth detail)
                  (odict_keys full_dirs) in
              yield_then item
                match maxdepth with
                | Some m =>
                    let m := m - 1 in
                    if m <? 1 then gen_return None else descend (Some m)
                | None => descend None
                end
          end
      end
  end.

(** The key [info["name"]] of the dict comprehension in [find]; [walk]
    has already called [rstrip] on it, so it is a [str] there. *)
Definition name_key (i : entry) : res string :=
  let* v := getitem i "name" in
  match v with VStr s => Ok s | _ => Raise AttributeError end.

(** The body of the loop of [find] over the items of [walk]. *)
Definition find_collect (withdirs : bool) (out : odict string entry)
    (item : walk_item) : res (odict string entry) :=
  match item with
  | WalkDetail _ dirs files =>
      let files := if withdirs then odict_update files dirs else files in
      let* kvs := mapM (fun kv => let* k := name_key (snd kv) in Ok (k, snd kv)) files in
      Ok (odict_update out kvs)
  | WalkNames _ _ _ => Raise AttributeError
  end.

(** [find] *)
Definition find (fuel : nat) (path : string) (maxdepth : option Z)
    (withdirs detail : bool) : fueled listing_out :=
  let path := strip path in
  let g := walk fuel path maxdepth true in
  let+ out := lift (foldM (find_collect withdirs) (yielded g) []) in
  let+ _ := match ending g with
            | StopIteration _ => Some (Ok tt)
            | GenRaise e => Some (Raise e)
            | GenOutOfFuel => None
            end in
  let+ isf := lift (match out with [] => isfile path | _ => Ok false end) in
  let out := if isf : bool then odict_set path (∅ : entry) out else out in
  let names := sorted (odict_keys out) in
  if detail
  then Some (Ok (Detail (omap (fun n => pair n <$> odict_get n out) names)))
  else Some (Ok (Names names)).

(** [path.find(sub) if path.find(sub) >= 0 else len(path)] *)
Definition find_or_len (path sub : string) : Z :=
  if 0 <=? PyStr.find path sub then PyStr.find path sub else PyStr.len path.

(** The regular expression [glob] builds from the pattern. Both
    [re.sub] calls replace a fixed string: two stars, then one. *)
Definition glob_pattern (path : string) : string :=
  let esc c := backslash ++ c in
  let p := PyStr.replace path backslash (backslash ++ backslash) in
  let p := PyStr.replace p "." (esc ".") in
  let p := PyStr.replace p "+" (esc "+") in
  let p := PyStr.replace p "//" "/" in
  let p := PyStr.replace p "(" (esc "(") in
  let p := PyStr.replace p ")" (esc ")") in
  let p := PyStr.replace p "|" (esc "|") in
  let p := PyStr.replace p "^" (esc "^") in
  let p := PyStr.replace p "$" (esc "$") in
  let p := PyStr.replace p "{" (esc "{") in
  let p := PyStr.replace p "}" (esc "}") in
  let p := PyStr.rstrip "/" p in
  let p := PyStr.replace p "?" "." in
  let pattern := "^" ++ p ++ "$" in
  let pattern := PyStr.replace pattern "**" "=PLACEHOLDER=" in
  let pattern := PyStr.replace pattern "*" "[^/]*" in
  PyStr.replace pattern "=PLACEHOLDER=" ".*".

(** The tail of [glob]: [find] under [root], then the filter. *)
Definition glob_search (fuel : nat) (path root : string)
    (depth : option Z) (detail : bool) : fueled listing_out :=
  let+ allpaths := find fuel root depth true true in
  let allpaths := match allpaths with Detail d => d | Names _ => [] end in
  let+ matches := lift (re_compile (glob_pattern path)) in
  let out :=
    omap (fun p =>
            if matches (PyStr.rstrip "/" (PyStr.replace p "//" "/")) : bool
            then pair p <$> odict_get p allpaths else None)
         (sorted (odict_keys allpaths)) in
  Some (Ok (if detail then Detail out else Names (odict_keys out))).

(** [glob] *)
Definition glob (fuel : nat) (path : string) (detail : bool)
    : fueled listing_out :=
  let ends := PyStr.endswith path "/" in
  let path := strip path in
  let indstar := find_or_len path "*" in
  let indques := find_or_len path "?" in
  let indbrace := find_or_len path "[" in
  let ind := Z.min (Z.min indstar indques) indbrace in
  if negb (PyStr.has_magic path) then
    if ends then glob_search fuel (path ++ "/*") path (Some 1) detail
    else
      let+ e := lift (exists_ path) in
      if e : bool then
        if detail
        then let+ i := lift (info path) in Some (Ok (Detail [(path, i)]))
        else Some (Ok (Names [path]))
      else Some (Ok (if detail then Detail [] else Names []))
  else if PyStr.contains (PyStr.slice path None (Some ind)) "/" then
    let ind2 := PyStr.rfind (PyStr.slice path None (Some ind)) "/" in
    let root := PyStr.slice path None (Some (ind2 + 1)) in
    let depth :=
      if PyStr.contains path "**" then None
      else Some (PyStr.count (PyStr.slice path (Some (ind2 + 1)) None) "/" + 1) in
    glob_search fuel path root depth detail
  else
    let depth :=
      if PyStr.contains path "**" then None
      else Some (PyStr.count (PyStr.slice path (Some (ind + 1)) None) "/" + 1) in
    glob_search fuel path "" depth detail.

(** The names in a result of [find] or [glob], as [set(...)] sees
    them. *)
Definition names_of (out : listing_out) : list string :=
  match out with
  | Names l => l
  | Detail d => odict_keys d
  end.

(** [maxdepth if not maxdepth else maxdepth - 1] *)
Definition reduce_depth (maxdepth : option Z) : option Z :=
  match maxdepth with
  | None => None
  | Some m => if m =? 0 then Some m else Some (m - 1)
  end.

(** A [for] loop whose body may raise or exhaust the fuel. *)
Fixpoint ffold {A S} (f : S -> A -> fueled S) (l : list A) (s : S)
    : fueled S :=
  match l with
  | [] => Some (Ok s)
  | x :: l' => let+ s' := f s x in ffold f l' s'
  end.

(** [expand_path] on a list of paths: the [else] branch together with
    the two statements that follow it. *)
Fixpoint expand_paths (fuel : nat) (paths : list string)
    (recursive : bool) (maxdepth : option Z) : fueled (list string) :=
  match fuel with
  | O => None
  | S fuel' =>
      let maxdepth := reduce_depth maxdepth in
      let paths := map strip paths in
      let body (out : gset string) (p : string) : fueled (gset string) :=
        if PyStr.has_magic p then
          let+ g := glob fuel' p false in
          let bit : gset string := list_to_set (names_of g) in
          let out := out ∪ bit in
          if recursive then
            let+ sub := expand_paths fuel' (elements bit) recursive maxdepth in
            Some (Ok (out ∪ list_to_set sub))
          else Some (Ok out)
        else
          let+ out :=
            if recursive then
              let+ rec := find fuel' p maxdepth true false in
              Some (Ok (out ∪ list_to_set (names_of rec)))
            else Some (Ok out) in
          if bool_decide (p ∉ out) then
            let+ keep := lift (if recursive then exists_ p else Ok true) in
            Some (Ok (if keep : bool then out ∪ {[p]} else out))
          else Some (Ok out) in
      let+ out := ffold body paths ∅ in
      if bool_decide (out = ∅)
      then Some (Raise (FileNotFoundError (String.concat ", " paths)))
      else Some (Ok (sorted (elements out)))
  end.

(** [expand_path]: a [str] argument goes through the list form and
    then through the same two closing statements. *)
Definition expand_path (fuel : nat) (path : path_arg) (recursive : bool)
    (maxdepth : option Z) : fueled (list string) :=
  match path with
  | PathList ps => expand_paths fuel ps recursive maxdepth
  | OnePath p =>
      let+ out := expand_paths fuel [p] recursive maxdepth in
      match out with
      | [] => Some (Raise (FileNotFoundError p))
      | _ => Some (Ok (sorted out))
      end
  end.

End derived.

(** ** Removal *)

Section removal.
Context (cls : fs_class).
(** The backend: a store, its listing and its [rm_file]. *)
Context {store : Type}.
Context (ls_of : store -> string -> res (list entry)).
Context (rm_file : string -> store -> res store).
Context (re_compile : string -> res (string -> bool)).

(** [for p in paths: self.rm_file(p)], with the calls made, in
    order. *)
Fixpoint rm_each (paths : list string) (s : store)
    : list string * res store :=
  match paths with
  | [] => ([], Ok s)
  | p :: paths' =>
      match rm_file p s with
      | Ok s' => let '(calls, r) := rm_each paths' s' in (p :: calls, r)
      | Raise e => ([p], Raise e)
      end
  end.

(** [rm]: the calls of [rm_file] made and the outcome. *)
Definition rm (fuel : nat) (path : path_arg) (recursive : bool)
    (maxdepth : option Z) (s : store) : option (list string * res store) :=
  match expand_path cls (ls_of s) re_compile fuel path recursive maxdepth with
  | None => None
  | Some (Raise e) => Some ([], Raise e)
  | Some (Ok paths) => Some (rm_each (rev paths) s)
  end.

End removal.

(** ** Filesystem handles: directory cache and transactions *)

(** The attributes of a handle set by [__init__] and by [_Cached]. The
    pending invalidations hold [None] for [invalidate_cache()] without a
    path. *)
Record handle (token : Type) : Type := {
  _fs_token_ : option token;
  storage_args : list pyval;
  storage_options : odict string pyval;
  _intrans : bool;
  _invalidated_caches_in_transaction : list (option string);
  dircache : gmap string (list entry);
  (** the files of [self._transaction], by path *)
  transaction_files : list string
}.
Arguments _fs_token_ {token} h.
Arguments storage_args {token} h.
Arguments storage_options {token} h.
Arguments _intrans {token} h.
Arguments _invalidated_caches_in_transaction {token} h.
Arguments dircache {token} h.
Arguments transaction_files {token} h.

Section transactions.
Context {token : Type}.

Definition with_intrans (b : bool) (h : handle token) : handle token :=
  {| _fs_token_ := _fs_token_ h;
     storage_args := storage_args h;
     storage_options := storage_options h;
     _intrans := b;
     _invalidated_caches_in_transaction :=
       _invalidated_caches_in_transaction h;
     dircache := dircache h;
     transaction_files := transaction_files h |}.

Definition with_pending (l : list (option string)) (h : handle token)
    : handle token :=
  {| _fs_token_ := _fs_token_ h;
     storage_args := storage_args h;
     storage_options := storage_options h;
     _intrans := _intrans h;
     _invalidated_caches_in_transaction := l;
     dircache := dircache h;
     transaction_files := transaction_files h |}.

Definition with_files (l : list string) (h : handle token) : handle token :=
  {| _fs_token_ := _fs_token_ h;
     storage_args := storage_args h;
     storage_options := storage_options h;
     _intrans := _intrans h;
     _invalidated_caches_in_transaction :=
       _invalidated_caches_in_transaction h;
     dircache := dircache h;
     transaction_files := l |}.

(** [start_transaction] *)
Definition start_transaction (h : handle token) : handle token :=
  with_files [] (with_intrans true h).

(** [invalidate_cache] *)
Definition invalidate_cache (path : option string) (h : handle token)
    : handle token :=
  if _intrans h
  then with_pending (_invalidated_caches_in_transaction h ++ [path]) h
  else h.

End transactions.

(** ** The instance cache *)

(** The process as [__call__] sees it. *)
Record process : Type := {
  getpid : Z;
  get_ident : Z
}.

(** The objects built so far (an object's identity is its index) and the
    class attributes [_cache] and [_pid]. *)
Record world (token : Type) : Type := {
  objects : list (handle token);
  _cache : odict token nat;
  _pid : Z
}.
Arguments objects {token} w.
Arguments _cache {token} w.
Arguments _pid {token} w.

(** Truthiness of a value. *)
Definition truthy (v : pyval) : bool :=
  match v with
  | VNone => false
  | VBool b => b
  | VInt n => negb (n =? 0)
  | VStr s => negb (String.eqb s "")
  end.

Section instance_cache.
Context {token : Type} `{EqDecision token}.
Context (cls : fs_class).
(** [utils.tokenize(cls, pid, thread, *args, *extra_tokens, **kwargs)] *)
Context (tokenize :
  fs_class -> Z -> Z -> list pyval -> list pyval -> odict string pyval -> token).
(** [config.apply_config(cls, kwargs)] *)
Context (apply_config : fs_class -> odict string pyval -> odict string pyval).
(** The values of the attributes named in [_extra_tokenize_attributes]. *)
Context (extra_tokens : list pyval).

(** [AbstractFileSystem.__init__] on a new object, followed by the
    three assignments of [__call__]. *)
Definition new_handle (tok : token) (args : list pyval)
    (kwargs : odict string pyval) : handle token :=
  {| _fs_token_ := Some tok;
     storage_args := args;
     storage_options := kwargs;
     _intrans := false;
     _invalidated_caches_in_transaction := [];
     dircache := ∅;
     transaction_files := [] |}.

(** [_Cached.__call__]: the world after the call and the object
    returned. [async_impl] is [False] on this class. *)
Definition __call__ (proc : process) (args : list pyval)
    (kwargs : odict string pyval) (w : world token) : world token * nat :=
  let kwargs := apply_config cls kwargs in
  let tok := tokenize cls (_pid w) (get_ident proc) args extra_tokens kwargs in
  let '(skip, kwargs) := odict_pop "skip_instance_cache" (VBool false) kwargs in
  let w :=
    if bool_decide (getpid proc <> _pid w)
    then {| objects := objects w; _cache := []; _pid := getpid proc |}
    else w in
  match
    (if negb (truthy skip) && cachable cls then odict_get tok (_cache w)
     else None)
  with
  | Some obj => (w, obj)
  | None =>
      let obj := length (objects w) in
      let w := {| objects := objects w ++ [new_handle tok args kwargs];
                  _cache := _cache w; _pid := _pid w |} in
      let w :=
        if cachable cls && negb (truthy skip)
        then {| objects := objects w;
                _cache := odict_set tok obj (_cache w);
                _pid := _pid w |}
        else w in
      (w, obj)
  end.

(** [skip_instance_cache] as [__call__] reads it. *)
Definition skips (kwargs : odict string pyval) : bool :=
  truthy (fst (odict_pop "skip_instance_cache" (VBool false)
                 (apply_config cls kwargs))).

End instance_cache.

(** ** The buffered file *)

(** The attributes of an [AbstractBufferedFile]. [content] stands for
    the bytes behind the read cache; [buffer] is the [BytesIO] of write
    mode, which is only ever appended to; [upload] is whatever the
    backend keeps of the upload. [forced], [buffer] and [offset] exist
    in write mode only. *)
Record file (B : Type) : Type := {
  path : string;
  mode : string;
  fblocksize : Z;
  loc : Z;
  closed : bool;
  size : Z;
  content : string;
  buffer : string;
  offset : option Z;
  forced : bool;
  upload : B
}.
Arguments path {B} f.
Arguments mode {B} f.
Arguments fblocksize {B} f.
Arguments loc {B} f.
Arguments closed {B} f.
Arguments size {B} f.
Arguments content {B} f.
Arguments buffer {B} f.
Arguments offset {B} f.
Arguments forced {B} f.
Arguments upload {B} f.

Section buffered_file.
Context {B : Type}.
(** [_initiate_upload] and [_upload_chunk(final)] of the backend; the
    latter also tells whether its result [is not False]. They see the
    buffer and the offset. *)
Context (_initiate_upload : file B -> res B).
Context (_upload_chunk : bool -> file B -> res (bool * B)).

Definition set_loc (n : Z) (f : file B) : file B :=
  {| path := path f; mode := mode f; fblocksize := fblocksize f; loc := n;
     closed := closed f; size := size f; content := content f;
     buffer := buffer f; offset := offset f; forced := forced f;
     upload := upload f |}.

Definition set_closed (c : bool) (f : file B) : file B :=
  {| path := path f; mode := mode f; fblocksize := fblocksize f;
     loc := loc f; closed := c; size := size f; content := content f;
     buffer := buffer f; offset := offset f; forced := forced f;
     upload := upload f |}.

Definition set_buffer (b : string) (f : file B) : file B :=
  {| path := path f; mode := mode f; fblocksize := fblocksize f;
     loc := loc f; closed := closed f; size := size f;
     content := content f; buffer := b; offset := offset f;
     forced := forced f; upload := upload f |}.

Definition set_offset (o : option Z) (f : file B) : file B :=
  {| path := path f; mode := mode f; fblocksize := fblocksize f;
     loc := loc f; closed := closed f; size := size f;
     content := content f; buffer := buffer f; offset := o;
     forced := forced f; upload := upload f |}.

Definition set_forced (b : bool) (f : file B) : file B :=
  {| path := path f; mode := mode f; fblocksize := fblocksize f;
     loc := loc f; closed := closed f; size := size f;
     content := content f; buffer := buffer f; offset := offset f;
     forced := b; upload := upload f |}.

Definition set_upload (u : B) (f : file B) : file B :=
  {| path := path f; mode := mode f; fblocksize := fblocksize f;
     loc := loc f; closed := closed f; size := size f;
     content := content f; buffer := buffer f; offset := offset f;
     forced := forced f; upload := u |}.

(** [self.mode in {"wb", "ab"}] *)
Definition write_mode (f : file B) : bool :=
  String.eqb (mode f) "wb" || String.eqb (mode f) "ab".

(** A write-mode file whose [forced] flag is set. *)
Definition force_flushed (f : file B) : Prop :=
  write_mode f = true /\ forced f = true.

(** [tell] *)
Definition tell (f : file B) : Z := loc f.

(** [seek] *)
Definition seek (n : Z) (whence : Z) (f : file B) : file B * res Z :=
  if negb (String.eqb (mode f) "rb")
  then (f, Raise (OSError "Seek only available in read mode"))
  else
    let go (nloc : Z) :=
      if nloc <? 0 then (f, Raise (ValueError "Seek before start of file"))
      else (set_loc nloc f, Ok nloc) in
    if whence =? 0 then go n
    else if whence =? 1 then go (loc f + n)
    else if whence =? 2 then go (size f + n)
    else (f, Raise (ValueError "invalid whence"))
.

(** [flush] *)
Definition flush (force : bool) (f : file B) : file B * res unit :=
  if closed f then (f, Raise (ValueError "Flush on closed file"))
  else if force && negb (write_mode f) then (f, Raise AttributeError)
  else if force && forced f
  then (f, Raise (ValueError "Force flush cannot be called more than once"))
  else
    let f := if force then set_forced true f else f in
    if negb (write_mode f) then (f, Ok tt)
    else if negb force && (PyStr.len (buffer f) <? fblocksize f) then (f, Ok tt)
    else
      let started :=
        match offset f with
        | Some _ => (f, Ok tt)
        | None =>
            let f := set_offset (Some 0) f in
            match _initiate_upload f with
            | Ok u => (set_upload u f, Ok tt)
            | Raise e => (set_closed true f, Raise e)
            end
        end in
      match started with
      | (f, Raise e) => (f, Raise e)
      | (f, Ok _) =>
          match _upload_chunk force f with
          | Raise e => (f, Raise e)
          | Ok (done, u) =>
              let f := set_upload u f in
              if done : bool
              then (set_buffer ""
                      (set_offset
                         (Some (match offset f with Some o => o | None => 0 end
                                + PyStr.len (buffer f))) f),
                    Ok tt)
              else (f, Ok tt)
          end
      end.

(** [write]: the number of bytes accepted. *)
Definition write (data : string) (f : file B) : file B * res Z :=
  if negb (write_mode f) then (f, Raise (ValueError "File not in write mode"))
  else if closed f
  then (f, Raise (ValueError "I/O operation on closed file."))
  else if forced f
  then (f, Raise (ValueError "This file has been force-flushed, can only close"))
  else
    let out := PyStr.len data in
    let f := set_buffer (buffer f ++ data) f in
    let f := set_loc (loc f + out) f in
    if fblocksize f <=? PyStr.len (buffer f)
    then
      match flush false f with
      | (f, Ok _) => (f, Ok out)
      | (f, Raise e) => (f, Raise e)
      end
    else (f, Ok out).

(** Modelled from the spec: [cache._fetch(start, end)] of the read
    caches (core.py is not among the sources): the bytes of
    [start, end), the upper bound clamped to the size. *)
Definition cache_fetch (f : file B) (start stop : Z) : string :=
  if (size f <=? start) || (stop <=? start) then ""
  else PyStr.slice (content f) (Some start) (Some (Z.min stop (size f))).

(** [read]; [None] is [length=None]. *)
Definition read (length : option Z) (f : file B) : file B * res string :=
  let length := match length with None => -1 | Some n => n end in
  if negb (String.eqb (mode f) "rb")
  then (f, Raise (ValueError "File not in read mode"))
  else
    let length := if length <? 0 then size f - loc f else length in
    if closed f then (f, Raise (ValueError "I/O operation on closed file."))
    else if length =? 0 then (f, Ok "")
    else
      let out := cache_fetch f (loc f) (loc f + length) in
      (set_loc (loc f + PyStr.len out) f, Ok out).

(** [blocks or self.blocksize] *)
Definition block_length (blocks : option Z) (f : file B) : Z :=
  match blocks with
  | None => fblocksize f
  | Some b => if b =? 0 then fblocksize f else b
  end.

(** The [while True] loop of [readuntil]; [out] is kept in order. *)
Fixpoint readuntil_loop (fuel : nat) (char : string) (blocks : option Z)
    (out : list string) (f : file B) : option (file B * res string) :=
  match fuel with
  | O => None
  | S fuel' =>
      let start := tell f in
      match read (Some (block_length blocks f)) f with
      | (f, Raise e) => Some (f, Raise e)
      | (f, Ok part) =>
          if PyStr.len part =? 0 then Some (f, Ok (String.concat "" out))
          else
            let found := PyStr.find part char in
            if -1 <? found then
              let out :=
                (out ++ [PyStr.slice part None (Some (found + PyStr.len char))])%list in
              match seek (start + found + PyStr.len char) 0 f with
              | (f, Raise e) => Some (f, Raise e)
              | (f, Ok _) => Some (f, Ok (String.concat "" out))
              end
            else readuntil_loop fuel' char blocks (out ++ [part])%list f
      end
  end.

(** [readuntil] *)
Definition readuntil (fuel : nat) (char : string) (blocks : option Z)
    (f : file B) : option (file B * res string) :=
  readuntil_loop fuel char blocks [] f.

End buffered_file.

Section close.
Context {B token : Type}.
Context (cls : fs_class).
Context (_initiate_upload : file B -> res B).
Context (_upload_chunk : bool -> file B -> res (bool * B)).

(** [close], on the file and the handle [self.fs] it refers to
    ([None] when [self.fs is None]). The attribute [_unclosable] is
    never set in this module. *)
Definition close (f : file B) (fs : option (handle token))
    : file B * option (handle token) * res unit :=
  if closed f then (f, fs, Ok tt)
  else if String.eqb (mode f) "rb" then (set_closed true f, fs, Ok tt)
  else
    let flushed :=
      if negb (forced f) then flush _initiate_upload _upload_chunk true f
      else (f, Ok tt) in
    match flushed with
    | (f, Raise e) => (f, fs, Raise e)
    | (f, Ok _) =>
        let fs :=
          match fs with
          | None => None
          | Some h =>
              Some (invalidate_cache (Some (_parent cls (path f)))
                      (invalidate_cache (Some (path f)) h))
          end in
        (set_closed true f, fs, Ok tt)
    end.

End close.

(** ** Sample filesystems *)

Definition file_entry (name : string) (sz : Z) : entry :=
  {[ "name" := VStr name; "size" := VInt sz; "type" := VStr "file" ]}.

Definition dir_entry (name : string) : entry :=
  {[ "name" := VStr name; "size" := VInt 0; "type" := VStr "directory" ]}.

(** A class whose paths are absolute, as the in-memory filesystem's. *)
Definition memfs : fs_class :=
  {| cachable := true;
     protocol := ProtoStr "memory";
     root_marker := "/";
     blocksize := 2 ^ 22 |}.

(** The tree [/a/b/c.txt], [/a/b/d.txt], [/a/e.txt]; listing a file gives
    its own entry, listing anything else raises. *)
Definition sample_ls (p : string) : res (list entry) :=
  if String.eqb p "/" then Ok [dir_entry "/a"]
  else if String.eqb p "/a" then Ok [dir_entry "/a/b"; file_entry "/a/e.txt" 3]
  else if String.eqb p "/a/b"
  then Ok [file_entry "/a/b/c.txt" 5; file_entry "/a/b/d.txt" 7]
  else if String.eqb p "/a/b/c.txt" then Ok [file_entry "/a/b/c.txt" 5]
  else if String.eqb p "/a/b/d.txt" then Ok [file_entry "/a/b/d.txt" 7]
  else if String.eqb p "/a/e.txt" then Ok [file_entry "/a/e.txt" 3]
  else Raise (FileNotFoundError p).

(** The same tree without the leading slash, for the base class, whose
    [root_marker] is empty. *)
Definition flat_ls (p : string) : res (list entry) :=
  if String.eqb p "" then Ok [dir_entry "a"]
  else if String.eqb p "a" then Ok [dir_entry "a/b"; file_entry "a/e.txt" 3]
  else if String.eqb p "a/b"
  then Ok [file_entry "a/b/c.txt" 5; file_entry "a/b/d.txt" 7]
  else Raise (FileNotFoundError p).

(** A backend whose every listing fails for want of permission. *)
Definition denied_ls (p : string) : res (list entry) := Raise PermissionError.

(** The entries of a listing whose name, trailing slashes apart, is
    [path]. *)
Definition matching (path : string) (out : list entry) : list entry :=
  filter (fun o => stripped_name o = Ok path) out.

(** Every entry of a listing has a [str] under ["name"]. *)
Definition named_entries (out : list entry) : Prop :=
  Forall (fun o => exists s, o !! "name" = Some (VStr s)) out.

(** A handle outside any transaction whose directory cache holds the
    listing of [a]. *)
Definition sample_handle : handle unit :=
  {| _fs_token_ := None;
     storage_args := [];
     storage_options := [];
     _intrans := false;
     _invalidated_caches_in_transaction := [];
     dircache := {[ "a" := [file_entry "a/x" 1] ]};
     transaction_files := [] |}.

(** ** Sequences of calls on a write-mode file *)

Inductive file_op : Type :=
| OpWrite (data : string)
| OpFlush (force : bool)
| OpTell
| OpClose.

Section file_ops.
Context {B token : Type}.
Context (cls : fs_class).
Context (_initiate_upload : file B -> res B).
Context (_upload_chunk : bool -> file B -> res (bool * B)).

(** One call; its result, value or exception, is dropped and the state
    it leaves is kept. *)
Definition run_op (op : file_op) (st : file B * option (handle token))
    : file B * option (handle token) :=
  let '(f, fs) := st in
  match op with
  | OpWrite data => (fst (write _initiate_upload _upload_chunk data f), fs)
  | OpFlush force => (fst (flush _initiate_upload _upload_chunk force f), fs)
  | OpTell => (f, fs)
  | OpClose =>
      let '(f, fs, _) := close cls _initiate_upload _upload_chunk f fs in (f, fs)
  end.

Definition run_ops (ops : list file_op) (st : file B * option (handle token))
    : file B * option (handle token) :=
  fold_left (fun st op => run_op op st) ops st.

End file_ops.

(** A write-mode file after [flush(force=True)]; the backend accepts
    every chunk. *)
Definition accept_upload (f : file unit) : res unit := Ok tt.
Definition accept_chunk (final : bool) (f : file unit) : res (bool * unit) :=
  Ok (true, tt).
Definition forced_file : file unit :=
  {| path := "a/x"; mode := "wb"; fblocksize := 4; loc := 3; closed := false;
     size := 0; content := ""; buffer := ""; offset := Some 3; forced := true;
     upload := tt |}.

(** Every character of [t] is one of [chars]. *)
Fixpoint only_chars (chars t : string) : bool :=
  match t with
  | EmptyString => true
  | String c t' => PyStr.mem_char c chars && only_chars chars t'
  end.

(** A compiled pattern that matches everything. *)
Definition any_re (pattern : string) : res (string -> bool) :=
  Ok (fun _ => true).

(** ** A sample class and process, for the instance cache *)

(** Modelled from the spec: [utils.tokenize] (utils.py is not among the
    sources), "a content-address of (class identity, process id, thread
    id, args, options, designated extra tokenizable class attributes)".
    Here the address is the tuple itself, so distinct inputs never
    collide; the class is left out as every class has a cache of its
    own. *)
Definition sample_token : Type :=
  Z * Z * list pyval * list pyval * odict string pyval.

Definition sample_tokenize (cls : fs_class) (pid tid : Z)
    (args extra : list pyval) (kwargs : odict string pyval) : sample_token :=
  (pid, tid, args, extra, kwargs).

(** No configured defaults: [apply_config] returns the options as they
    are. *)
Definition no_config (cls : fs_class) (kwargs : odict string pyval)
    : odict string pyval := kwargs.

(** The class was created by process 100, which built nothing yet. *)
Definition fresh_world : world sample_token :=
  {| objects := []; _cache := []; _pid := 100 |}.

Definition parent_process : process := {| getpid := 100; get_ident := 1 |}.

(** A child forked from it: another pid, the same thread. *)
Definition child_process : process := {| getpid := 200; get_ident := 1 |}.

Definition sample_call (proc : process) (kwargs : odict string pyval)
    (w : world sample_token) : world sample_token * nat :=
  __call__ AbstractFileSystem sample_tokenize no_config [] proc [] kwargs w.

(** A file of six bytes open for reading in blocks of two. *)
Definition sample_reader : file unit :=
  {| path := "a/x"; mode := "rb"; fblocksize := 2; loc := 0; closed := false;
     size := 6; content := "abXYcd"; buffer := ""; offset := None;
     forced := false; upload := tt |}.

(** The bytes a reader can still deliver: those of the content below
    [size], from the current position on. *)
Definition remaining {B : Type} (f : file B) : string :=
  PyStr.drop (Z.to_nat (loc f)) (PyStr.take (Z.to_nat (size f)) (content f)).

(** ** Tactics *)

(** Case analysis on what the backend answers inside [flush], innermost
    scrutinee first. *)
Ltac break_flush :=
  repeat match goal with
         | |- context [match ?x with _ => _ end] =>
             lazymatch x with
             | context [match _ with _ => _ end] => fail
             | _ => destruct x; cbn [fst snd]
             end
         end.

(** The [ls] of the base class. *)
Definition base_ls (p : string) : res (list entry) :=
  Raise (NotImplementedError "ls").

(** A listing with an entry that has no ["type"]. *)
Definition untyped_ls (p : string) : res (list entry) :=
  Ok [{[ "name" := VStr "a" ]}].

(** ** More of the buffered file *)

(** The one-byte string [b"\n"]. *)
Definition newline : string := String (ascii_of_nat 10) EmptyString.

(** [s.split(sep)] for a non-empty separator: the pieces between the
    occurrences of [sep], taken left to right without overlap; [skip]
    counts the characters of the current occurrence still to pass. *)
Fixpoint split_from (skip : nat) (sep s : string) : list string :=
  match s with
  | EmptyString => [EmptyString]
  | String c s' =>
      match skip with
      | S k => split_from k sep s'
      | O =>
          if String.prefix sep s
          then EmptyString :: split_from (String.length sep - 1) sep s'
          else match split_from O sep s' with
               | piece :: pieces => String c piece :: pieces
               | [] => [String c EmptyString]
               end
      end
  end.
Definition split (s sep : string) : list string := split_from O sep s.

Section reading_lines.
Context {B : Type}.

(** [readline] *)
Definition readline (fuel : nat) (f : file B) : option (file B * res string) :=
  readuntil fuel newline None f.

(** [readlines] *)
Definition readlines (f : file B) : file B * res (list string) :=
  match read None f with
  | (f, Raise e) => (f, Raise e)
  | (f, Ok data) =>
      let lines := split data newline in
      let out := map (fun l => l ++ newline) (removelast lines) in
      if PyStr.endswith data newline then (f, Ok out)
      else (f, Ok (out ++ [List.last lines EmptyString])%list)
  end.

(** [readinto], on the bytes of the buffer [b]: the buffer afterwards
    and the number of bytes put into it. *)
Definition readinto (b : string) (f : file B) : file B * res (string * Z) :=
  match read (Some (PyStr.len b)) f with
  | (f, Raise e) => (f, Raise e)
  | (f, Ok data) =>
      (f, Ok (data ++ PyStr.drop (String.length data) b, PyStr.len data))
  end.

End reading_lines.

(** ** Whole-file operations of the filesystem *)

Section file_access.
Context {B token : Type}.
Context (cls : fs_class).
Context (_initiate_upload : file B -> res B).
Context (_upload_chunk : bool -> file B -> res (bool * B)).
(** [self.open(path, mode)], which backends are free to redefine. *)
Context (open_ : string -> string -> res (file B)).

(** [with f: body]: [f.close()] runs whatever the body did, and an
    exception of its own takes the place of the body's outcome. *)
Definition with_file {A} (f : file B) (h : option (handle token))
    (body : file B -> file B * res A) : option (handle token) * res A :=
  let '(f, r) := body f in
  let '(_, h, rc) := close cls _initiate_upload _upload_chunk f h in
  (h, match rc with Raise e => Raise e | Ok _ => r end).

(** [cat_file] *)
Definition cat_file (path : string) (start end_ : option Z)
    (h : option (handle token)) : option (handle token) * res string :=
  match open_ path "rb" with
  | Raise e => (h, Raise e)
  | Ok f =>
      with_file f h (fun f =>
        let '(f, sought) :=
          match start with
          | None => (f, Ok 0)
          | Some s =>
              if 0 <=? s then seek s 0 f
              else seek (Z.max 0 (size f + s)) 0 f
          end in
        match sought with
        | Raise e => (f, Raise e)
        | Ok _ =>
            match end_ with
            | Some e =>
                let e := if e <? 0 then size f + e else e in
                read (Some (e - tell f)) f
            | None => read None f
            end
        end)
  end.

(** [head] *)
Definition head (path : string) (n : Z) (h : option (handle token))
    : option (handle token) * res string :=
  match open_ path "rb" with
  | Raise e => (h, Raise e)
  | Ok f => with_file f h (fun f => read (Some n) f)
  end.

(** [tail] *)
Definition tail (path : string) (n : Z) (h : option (handle token))
    : option (handle token) * res string :=
  match open_ path "rb" with
  | Raise e => (h, Raise e)
  | Ok f =>
      with_file f h (fun f =>
        match seek (Z.max (- n) (- size f)) 2 f with
        | (f, Raise e) => (f, Raise e)
        | (f, Ok _) => read None f
        end)
  end.

End file_access.

(** A backend that keeps every chunk it is given, in order, and accepts
    them all. *)
Definition keep_initiate (f : file (list string)) : res (list string) :=
  Ok (upload f).
Definition keep_chunk (final : bool) (f : file (list string))
    : res (bool * list string) :=
  Ok (true, (upload f ++ [buffer f])%list).

(** A file as [__init__] leaves it in mode [wb]. *)
Definition new_writer (path : string) (bs : Z) : file (list string) :=
  {| path := path; mode := "wb"; fblocksize := bs; loc := 0; closed := false;
     size := 0; content := ""; buffer := ""; offset := None; forced := false;
     upload := [] |}.

(** What [offset] counts: nothing before the upload has started. *)
Definition uploaded {B : Type} (f : file B) : Z :=
  match offset f with Some o => o | None => 0 end.

(** A file just opened for reading, its size that of its content. *)
Definition opened_for_reading {B : Type} (f : file B) : Prop :=
  mode f = "rb" /\ closed f = false /\ loc f = 0
  /\ size f = PyStr.len (content f).

(** A sample [open]: every path holds the six bytes of
    [sample_reader]. *)
Definition sample_open (path mode : string) : res (file unit) :=
  Ok sample_reader.

(** ** More of the instance cache *)

Section instance_cache_more.
Context {token : Type} `{EqDecision token}.
Context (cls : fs_class).
Context (tokenize :
  fs_class -> Z -> Z -> list pyval -> list pyval -> odict string pyval -> token).
Context (apply_config : fs_class -> odict string pyval -> odict string pyval).
Context (extra_tokens : list pyval).

(** [clear_instance_cache] *)
Definition clear_instance_cache (w : world token) : world token :=
  {| objects := objects w; _cache := []; _pid := _pid w |}.

(** [current] *)
Definition current (proc : process) (w : world token) : world token * nat :=
  match _cache w with
  | [] => __call__ cls tokenize apply_config extra_tokens proc [] [] w
  | kv :: kvs => (w, snd (List.last kvs kv))
  end.

(** Every cached object is one that was built. *)
Definition cache_sound (w : world token) : Prop :=
  Forall (fun kv => (snd kv < length (objects w))%nat) (_cache w).

End instance_cache_more.

(** In write mode, the position is the number of bytes uploaded plus
    the number of bytes waiting in the buffer. *)
Definition accounted {B : Type} (f : file B) : Prop :=
  write_mode f = true /\ loc f = uploaded f + PyStr.len (buffer f).

(** A backend that fails on every chunk. *)
Definition refuse_chunk (final : bool) (f : file (list string))
    : res (bool * list string) :=
  Raise (OSError "upload failed").

(** Three bytes written to a new file with blocks of four. *)
Definition half_written : file (list string) :=
  fst (write keep_initiate keep_chunk "abc" (new_writer "a/x" 4)).

(** As [break_flush], keeping what is known of [offset]. *)
Ltac break_upload Hoff :=
  repeat (cbn [offset set_upload set_offset set_forced set_closed fst snd];
          rewrite ?Hoff;
          match goal with
          | |- context [match ?x with _ => _ end] =>
              lazymatch x with
              | context [match _ with _ => _ end] => fail
              | _ => destruct x
              end
          end).

Ltac account :=
  unfold accounted, uploaded, write_mode in *;
  cbn [fst mode loc offset buffer set_buffer set_offset set_upload set_closed
       set_forced set_loc] in *;
  try change (PyStr.len "") with 0;
  try match goal with
      | H : offset ?f = _ |- context [offset ?f] => rewrite H
      end;
  split; [assumption | lia].

(** An open [wb] file in blocks of [bs] that was not force-flushed:
    the chunks kept by the backend and the buffer make up [w], every
    chunk has at least [bs] bytes and the buffer fewer. *)
Definition writing (bs : Z) (w : string) (f : file (list string)) : Prop :=
  mode f = "wb" /\ closed f = false /\ forced f = false /\ fblocksize f = bs
  /\ String.concat "" (upload f) ++ buffer f = w
  /\ Forall (fun c => bs <= PyStr.len c) (upload f)
  /\ PyStr.len (buffer f) < bs
  /\ loc f = PyStr.len w.

(** [s.endswith(c)] for a single byte [c], by the last byte of [s]. *)
Fixpoint ends_with_byte (c : ascii) (s : string) : bool :=
  match s with
  | EmptyString => false
  | String x EmptyString => Ascii.eqb x c
  | String _ s' => ends_with_byte c s'
  end.



(** * Results *)



(** ** Bookkeeping lemmas *)

Lemma bind_ok {A B} (m : res A) (k : A -> res B) (b : B) :
  bind m k = Ok b -> exists a, m = Ok a /\ k a = Ok b.
Proof. destruct m as [a|e]; simpl; [eauto | discriminate]. Qed.

Lemma stripped_name_named (o : entry) (s : string) :
  o !! "name" = Some (VStr s) -> stripped_name o = Ok (PyStr.rstrip "/" s).
Proof. intros H. unfold stripped_name, getitem. rewrite H. reflexivity. Qed.

(** On a listing of well-formed entries the comprehension of [info] is a
    plain filter. *)
Lemma named_matching (path : string) (out : list entry) :
  named_entries out -> named path out = Ok (matching path out).
Proof.
  unfold named_entries, named, matching.
  induction 1 as [|o out [s Hs] _ IH]; [reflexivity|].
  cbn [filterM]. rewrite (stripped_name_named o s Hs). cbn [bind].
  rewrite IH. cbn [bind]. rewrite filter_cons.
  rewrite (stripped_name_named o s Hs).
  destruct (String.eqb_spec (PyStr.rstrip "/" s) path) as [Heq|Hne].
  - rewrite decide_True by congruence. reflexivity.
  - rewrite decide_False by congruence. reflexivity.
Qed.

(** ** [exists] *)

Lemma exists_total
    (cls : fs_class) (ls : string -> res (list entry)) (p : string) :
  exists b, exists_ cls ls p = Ok b.
Proof.
  unfold exists_, try_except, any_exception.
  destruct (info cls ls p); simpl; eauto.
Qed.

(** C9. [exists(p)] never raises: it returns [True] exactly when
    [info(p)] returns, and [False] whenever [info(p)] raises, whatever
    the exception (a permission or connection error as much as
    [FileNotFoundError]). *)
Theorem exists_swallows_every_exception
    (cls : fs_class) (ls : string -> res (list entry)) (p : string) :
  (exists b, exists_ cls ls p = Ok b)
  /\ (exists_ cls ls p = Ok true <-> exists i, info cls ls p = Ok i)
  /\ (forall e, info cls ls p = Raise e -> exists_ cls ls p = Ok false).
Proof.
  unfold exists_, try_except, any_exception.
  destruct (info cls ls p) as [i|e]; simpl.
  - split; [eauto|]. split; [|discriminate].
    split; [eauto | reflexivity].
  - split; [eauto|]. split; [|reflexivity].
    split; [discriminate | intros [i Hi]; discriminate].
Qed.

(** A permission error of the backend is reported as non-existence. *)
Example exists_permission_denied :
  info memfs denied_ls "/a" = Raise PermissionError
  /\ exists_ memfs denied_ls "/a" = Ok false.
Proof. split; reflexivity. Qed.

(** ** [walk] *)

(** C1. When the listing of the (protocol-stripped) path raises
    [FileNotFoundError] or another [IOError], the [except] branch of
    [walk] executes [return path, [], []] inside the generator: the
    triple becomes the value of [StopIteration] and the iteration is
    empty, where the specification asks for one yielded triple. *)
Theorem walk_missing_yields_nothing
    (cls : fs_class) (ls : string -> res (list entry)) (fuel : nat)
    (p : string) (maxdepth : option Z) (detail : bool) (e : exn)
    (Hls : ls (_strip_protocol cls p) = Raise e)
    (He : is_OSError e = true) :
  yielded (walk cls ls (S fuel) p maxdepth detail) = []
  /\ ending (walk cls ls (S fuel) p maxdepth detail)
     = StopIteration (Some (empty_item detail (_strip_protocol cls p))).
Proof.
  simpl. rewrite Hls, He, orb_true_r. split; reflexivity.
Qed.

Lemma walk_missing_yields_nothing_witness :
  yielded (walk memfs sample_ls 1 "/missing" None false) = []
  /\ ending (walk memfs sample_ls 1 "/missing" None false)
     = StopIteration (Some (WalkNames "/missing" [] [])).
Proof.
  apply (walk_missing_yields_nothing memfs sample_ls 0 "/missing" None false
           (FileNotFoundError "/missing")); reflexivity.
Defined.

(** The same with [detail=True], and the contrast with a path that
    lists. *)
Example walk_missing_detail :
  yielded (walk memfs sample_ls 3 "/missing" None true) = []
  /\ yielded (walk memfs sample_ls 3 "/a/b" None false)
     = [WalkNames "/a/b" [] ["c.txt"; "d.txt"]].
Proof. split; vm_compute; reflexivity. Qed.

(** ** [info] *)

(** C2, as the code has it. With [q] the protocol-stripped path and
    [q'] the same without its trailing slashes: an error of the
    parent's listing propagates; an entry of that listing named [q] is
    returned if there is one (the first); otherwise [q] itself is
    listed, an error of that listing propagates, and among its entries
    named [q']: exactly one is returned (with [size] set to [None] when
    absent); several, or none in a non-empty listing, give the
    synthesized directory entry named [q']; only an empty listing
    raises [FileNotFoundError], on [q']. The listings are taken to hold
    entries with a string for name. *)
Theorem info_classifies
    (cls : fs_class) (ls : string -> res (list entry)) (p : string) :
  let q := _strip_protocol cls p in
  let q' := PyStr.rstrip "/" q in
  (forall e, ls (_parent cls q) = Raise e -> info cls ls p = Raise e)
  /\ (forall up, ls (_parent cls q) = Ok up -> named_entries up ->
      (forall o rest, matching q up = o :: rest -> info cls ls p = Ok o)
      /\ (matching q up = [] ->
          (forall e, ls q = Raise e -> info cls ls p = Raise e)
          /\ (forall out, ls q = Ok out -> named_entries out ->
              (forall o, matching q' out = [o] ->
                 info cls ls p
                 = Ok (match o !! "size" with
                       | None => <["size" := VNone]> o
                       | Some _ => o
                       end))
              /\ ((1 < length (matching q' out))%nat ->
                  info cls ls p = Ok (directory_entry q'))
              /\ (matching q' out = [] -> out <> [] ->
                  info cls ls p = Ok (directory_entry q'))
              /\ (out = [] ->
                  info cls ls p = Raise (FileNotFoundError q'))))).
Proof.
  intros q q'. unfold info. fold q. split.
  - intros e ->. reflexivity.
  - intros up -> Hwf. cbn [bind].
    rewrite (named_matching q up Hwf). cbn [bind]. split.
    + intros o rest ->. reflexivity.
    + intros ->. split.
      * intros e ->. reflexivity.
      * intros out -> Hwf'. cbn [bind]. fold q'.
        rewrite (named_matching q' out Hwf'). cbn [bind].
        repeat split.
        -- intros o ->. destruct (o !! "size"); reflexivity.
        -- intros Hlen.
           destruct (matching q' out) as [|o1 [|o2 rest]]; simpl in Hlen;
             try lia.
           replace (1 <? Z.of_nat (length (o1 :: o2 :: rest))) with true;
             [reflexivity|].
           symmetry. apply Z.ltb_lt. simpl length. lia.
        -- intros -> Hne. simpl.
           rewrite bool_decide_eq_false_2 by assumption. reflexivity.
        -- intros ->. reflexivity.
Qed.

Lemma sample_ls_named (p : string) (out : list entry) :
  sample_ls p = Ok out -> named_entries out.
Proof.
  unfold sample_ls, named_entries.
  repeat (destruct (String.eqb p _));
    intros [= <-]; repeat constructor; eexists; reflexivity.
Qed.

Lemma info_classifies_witness :
  info memfs sample_ls "memory:///a/e.txt" = Ok (file_entry "/a/e.txt" 3).
Proof.
  apply (proj1 (proj2 (info_classifies memfs sample_ls "memory:///a/e.txt")
                  [dir_entry "/a/b"; file_entry "/a/e.txt" 3]
                  eq_refl (sample_ls_named "/a" _ eq_refl))
               (file_entry "/a/e.txt" 3) []).
  vm_compute. reflexivity.
Defined.

(** The root of the sample tree: neither its parent's listing (which is
    its own) nor its own listing has an entry named after it, the
    listing is not empty, and [info] returns the synthesized directory
    entry instead of raising. *)
Lemma info_unmatched_not_missing :
  sample_ls (_parent memfs (_strip_protocol memfs "/")) = Ok [dir_entry "/a"]
  /\ sample_ls (_strip_protocol memfs "/") = Ok [dir_entry "/a"]
  /\ named "/" [dir_entry "/a"] = Ok []
  /\ named "" [dir_entry "/a"] = Ok []
  /\ info memfs sample_ls "/" = Ok (directory_entry "").
Proof. repeat split; vm_compute; reflexivity. Qed.

(** ** [invalidate_cache] *)

(** C3, as the code has it. The base [invalidate_cache] never touches
    the directory cache: outside a transaction it changes nothing at
    all, and inside one it only appends its argument, a path or [None],
    to the pending list. *)
Theorem invalidate_cache_only_defers {token : Type}
    (h : handle token) (path : option string) :
  dircache (invalidate_cache path h) = dircache h
  /\ (_intrans h = false -> invalidate_cache path h = h)
  /\ (_intrans h = true ->
      invalidate_cache path h
      = with_pending (_invalidated_caches_in_transaction h ++ [path]) h
      /\ _invalidated_caches_in_transaction (invalidate_cache path h)
         = (_invalidated_caches_in_transaction h ++ [path])%list).
Proof.
  unfold invalidate_cache. split; [|split].
  - destruct (_intrans h); reflexivity.
  - intros ->. reflexivity.
  - intros ->. split; reflexivity.
Qed.

(** Outside a transaction [invalidate_cache()] leaves a cached listing
    where it was: the directory cache is not emptied. *)
Lemma invalidate_cache_keeps_listings :
  _intrans sample_handle = false
  /\ dircache (invalidate_cache None sample_handle) !! "a"
     = Some [file_entry "a/x" 1]
  /\ dircache (invalidate_cache (Some "a") sample_handle) !! "a"
     = Some [file_entry "a/x" 1].
Proof. repeat split. Qed.

(** ** Writing after a force flush *)


Section forced.
Context {B token : Type}.
Context (cls : fs_class).
Context (_initiate_upload : file B -> res B).
Context (_upload_chunk : bool -> file B -> res (bool * B)).

Local Abbreviation write' := (write _initiate_upload _upload_chunk).
Local Abbreviation flush' := (flush _initiate_upload _upload_chunk).
Local Abbreviation close' := (close (token := token) cls _initiate_upload _upload_chunk).
Local Abbreviation run_op' := (run_op (token := token) cls _initiate_upload _upload_chunk).
Local Abbreviation run_ops' := (run_ops (token := token) cls _initiate_upload _upload_chunk).








(** [flush(force=True)] on an open write-mode file sets [forced],
    whether the upload then succeeds or raises. *)
Lemma flush_force_sets_forced (f : file B) :
  write_mode f = true -> closed f = false ->
  force_flushed (fst (flush' true f)).
Proof.
  intros Hm Hc. unfold flush, force_flushed. rewrite Hc, Hm.
  cbn [negb andb fst].
  destruct (forced f) eqn:Hf; [auto|].
  change (write_mode (set_forced true f)) with (write_mode f). rewrite Hm.
  cbn [negb andb orb].
  break_flush; auto.
Qed.


End forced.



(** The flag is set by the force flush run on a fresh write-mode file,
    and the write that follows is refused. *)
Example write_refused_after_flush :
  let f0 := {| path := "a/x"; mode := "wb"; fblocksize := 4; loc := 0;
               closed := false; size := 0; content := ""; buffer := "";
               offset := None; forced := false; upload := tt |} in
  let f1 := fst (write accept_upload accept_chunk "abc" f0) in
  let f2 := fst (flush accept_upload accept_chunk true f1) in
  f2 = forced_file
  /\ snd (write accept_upload accept_chunk "d" f2)
     = Raise (ValueError "This file has been force-flushed, can only close").
Proof. split; reflexivity. Qed.

(** ** Strings *)

Lemma append_cons (c : ascii) (a b : string) :
  String c a ++ b = String c (a ++ b).
Proof. reflexivity. Qed.

Lemma append_empty_r (a : string) : a ++ "" = a.
Proof. induction a as [|c a IH]; [reflexivity|]. rewrite append_cons, IH. reflexivity. Qed.

Lemma append_assoc (a b c : string) : (a ++ b) ++ c = a ++ (b ++ c).
Proof.
  induction a as [|x a IH]; [reflexivity|].
  rewrite !append_cons, IH. reflexivity.
Qed.

Lemma length_append (a b : string) :
  String.length (a ++ b) = (String.length a + String.length b)%nat.
Proof.
  induction a as [|x a IH]; [reflexivity|].
  rewrite append_cons. simpl. rewrite IH. reflexivity.
Qed.

Lemma prefix_append (a b : string) : String.prefix a (a ++ b) = true.
Proof.
  induction a as [|x a IH]; [destruct b; reflexivity|].
  rewrite append_cons. simpl. destruct (ascii_dec x x); [exact IH | congruence].
Qed.

Lemma prefix_append_same (a x y : string) :
  String.prefix (a ++ x) (a ++ y) = String.prefix x y.
Proof.
  induction a as [|c a IH]; [reflexivity|].
  rewrite !append_cons. simpl. destruct (ascii_dec c c); [exact IH | congruence].
Qed.





Lemma has_magic_drop (n : nat) (s : string) :
  PyStr.has_magic s = false -> PyStr.has_magic (PyStr.drop n s) = false.
Proof.
  revert s. induction n as [|n IH]; intros s H; [exact H|].
  destruct s as [|c s]; [reflexivity|].
  simpl in H. apply orb_false_elim in H as [_ H]. apply IH, H.
Qed.

Lemma has_magic_rstrip (chars s : string) :
  PyStr.has_magic s = false -> PyStr.has_magic (PyStr.rstrip chars s) = false.
Proof.
  induction s as [|c s IH]; [reflexivity|].
  cbn [PyStr.has_magic PyStr.rstrip]. intros H.
  apply orb_false_elim in H as [Hc H]. specialize (IH H).
  destruct (PyStr.rstrip chars s) as [|d r].
  - destruct (PyStr.mem_char c chars); [reflexivity|].
    cbn [PyStr.has_magic]. rewrite Hc. reflexivity.
  - cbn [PyStr.has_magic] in *. rewrite Hc. exact IH.
Qed.

Lemma has_magic_strip_one (path proto : string) :
  PyStr.has_magic path = false ->
  PyStr.has_magic (strip_one path proto) = false.
Proof.
  intros H. unfold strip_one.
  destruct (PyStr.startswith path (proto ++ "://"));
    [apply has_magic_drop, H|].
  destruct (PyStr.startswith path (proto ++ "::"));
    [apply has_magic_drop, H | exact H].
Qed.

Lemma has_magic_strip_protocol (cls : fs_class) (path : string) :
  PyStr.has_magic (root_marker cls) = false ->
  PyStr.has_magic path = false ->
  PyStr.has_magic (_strip_protocol cls path) = false.
Proof.
  intros Hroot H. unfold _strip_protocol.
  assert (Hfold : PyStr.has_magic (fold_left strip_one (protos cls) path) = false).
  { revert path H. induction (protos cls) as [|proto ps IH]; intros path H;
      [exact H|]. simpl. apply IH, has_magic_strip_one, H. }
  apply (has_magic_rstrip "/") in Hfold.
  destruct (PyStr.rstrip "/" (fold_left strip_one (protos cls) path));
    [exact Hroot | exact Hfold].
Qed.

(** ** [_strip_protocol] *)





Example strip_protocol_examples :
  _strip_protocol AbstractFileSystem "abstract://a/b//" = "a/b"
  /\ _strip_protocol AbstractFileSystem "abstract::a/b" = "a/b"
  /\ _strip_protocol memfs "memory://" = "/"
  /\ _strip_protocol_list memfs ["memory:///a/"; "/b"] = ["/a"; "/b"]
  /\ _parent memfs "/a/b/c.txt" = "/a/b"
  /\ _parent AbstractFileSystem "a" = "".
Proof. repeat split. Qed.

(** ** [glob] on a literal pattern *)

(** C6, as the code has it. For a pattern [p] without metacharacter and
    without trailing slash ([root_marker] having no metacharacter
    either), [glob(p)] is decided by [exists] on the protocol-stripped
    path [q], and it is [q] that is returned: [[q]] when [q] exists,
    [[]] when not. No fuel is needed: [find] is not reached. When
    stripping leaves [p] unchanged this is the round trip
    [glob(p) == [p]]. *)
Theorem glob_literal
    (cls : fs_class) (ls : string -> res (list entry))
    (re_compile : string -> res (string -> bool)) (fuel : nat) (p : string)
    (Hroot : PyStr.has_magic (root_marker cls) = false)
    (Hlit : PyStr.has_magic p = false)
    (Hend : PyStr.endswith p "/" = false) :
  let q := _strip_protocol cls p in
  (exists_ cls ls q = Ok true ->
   glob cls ls re_compile fuel p false = Some (Ok (Names [q])))
  /\ (exists_ cls ls q = Ok false ->
      glob cls ls re_compile fuel p false = Some (Ok (Names [])))
  /\ (q = p ->
      glob cls ls re_compile fuel p false
      = Some (Ok (Names (if bool_decide (exists_ cls ls p = Ok true)
                         then [p] else [])))).
Proof.
  intros q.
  assert (Hq : PyStr.has_magic q = false)
    by (apply has_magic_strip_protocol; assumption).
  assert (Hglob : glob cls ls re_compile fuel p false
                  = match exists_ cls ls q with
                    | Ok true => Some (Ok (Names [q]))
                    | Ok false => Some (Ok (Names []))
                    | Raise e => Some (Raise e)
                    end).
  { unfold glob. rewrite Hend. fold q. rewrite Hq. cbn [negb].
    unfold lift, fbind. destruct (exists_ cls ls q) as [[]|e]; reflexivity. }
  rewrite Hglob. repeat split.
  - intros ->. reflexivity.
  - intros ->. reflexivity.
  - intros Hqp. rewrite Hqp.
    destruct (exists_total cls ls p) as [b Hb].
    rewrite Hb. destruct b; reflexivity.
Qed.

Lemma glob_literal_witness :
  glob memfs sample_ls any_re 0 "/a/b" false = Some (Ok (Names ["/a/b"])).
Proof.
  apply (proj1 (glob_literal memfs sample_ls any_re 0 "/a/b"
                  eq_refl eq_refl eq_refl)).
  vm_compute. reflexivity.
Defined.

(** A literal pattern written with its protocol exists and has no
    trailing slash, yet [glob] answers with the stripped path, not with
    the pattern. *)
Lemma glob_literal_strips_protocol :
  PyStr.has_magic "abstract://a/b" = false
  /\ PyStr.endswith "abstract://a/b" "/" = false
  /\ exists_ AbstractFileSystem flat_ls "abstract://a/b" = Ok true
  /\ glob AbstractFileSystem flat_ls any_re 0 "abstract://a/b" false
     = Some (Ok (Names ["a/b"])).
Proof. repeat split; vm_compute; reflexivity. Qed.

Example glob_examples :
  glob memfs sample_ls any_re 0 "/a/zzz" false = Some (Ok (Names []))
  /\ glob memfs sample_ls any_re 0 "/a/b" true
     = Some (Ok (Detail [("/a/b", dir_entry "/a/b")]))
  /\ glob_pattern "/a/**/*.txt"
     = "^/a/.*/[^/]*" ++ backslash ++ ".txt$".
Proof. repeat split; vm_compute; reflexivity. Qed.

(** ** [expand_path] and [rm] *)


Lemma sorted_strongly_sorted (xs : list string) :
  StronglySorted String.le (sorted xs).
Proof. apply StronglySorted_merge_sort; apply _. Qed.

Lemma sorted_NoDup (xs : list string) : NoDup xs -> NoDup (sorted xs).
Proof. unfold sorted. rewrite merge_sort_Permutation. auto. Qed.




(** ** What [expand_path] returns *)



Section expansion.
Context (cls : fs_class).
Context (ls : string -> res (list entry)).
Context (re_compile : string -> res (string -> bool)).



End expansion.

(** ** [rm] *)

Section removal_facts.
Context (cls : fs_class) {store : Type}.
Context (ls_of : store -> string -> res (list entry)).
Context (rm_file : string -> store -> res store).
Context (re_compile : string -> res (string -> bool)).

(** The calls of the loop are an initial segment of the list, and all of
    it when no call raises. *)
Lemma rm_each_calls (paths : list string) (s : store) :
  fst (rm_each rm_file paths s) `prefix_of` paths
  /\ (forall s', snd (rm_each rm_file paths s) = Ok s' ->
      fst (rm_each rm_file paths s) = paths).
Proof.
  revert s. induction paths as [|p paths IH]; intros s; simpl.
  - split; [reflexivity | auto].
  - destruct (rm_file p s) as [s1|e]; simpl.
    + specialize (IH s1). destruct (rm_each rm_file paths s1) as [calls r].
      simpl in *. destruct IH as [Hpre Hall]. split.
      * apply prefix_cons, Hpre.
      * intros s' Hr. f_equal. apply (Hall s'), Hr.
    + split; [|discriminate]. exists paths. reflexivity.
Qed.




End removal_facts.


(** The calls made on the sample tree, in order. *)
Example rm_sample_calls :
  rm memfs (fun _ : unit => sample_ls) (fun _ s => Ok s) any_re 5
     (OnePath "/a") true None tt
  = Some (["/a/e.txt"; "/a/b/d.txt"; "/a/b/c.txt"; "/a/b"; "/a"], Ok tt).
Proof. vm_compute. reflexivity. Qed.

Example expand_path_examples :
  expand_path memfs sample_ls any_re 5 (OnePath "/a") true None
  = Some (Ok ["/a"; "/a/b"; "/a/b/c.txt"; "/a/b/d.txt"; "/a/e.txt"])
  /\ expand_path memfs sample_ls any_re 5 (PathList ["/a/e.txt"; "/a/b"]) false None
     = Some (Ok ["/a/b"; "/a/e.txt"])
  /\ expand_path memfs sample_ls any_re 5 (OnePath "/zzz") true None
     = Some (Raise (FileNotFoundError "/zzz"))
  /\ find memfs sample_ls 5 "/a" None false false
     = Some (Ok (Names ["/a/b/c.txt"; "/a/b/d.txt"; "/a/e.txt"])).
Proof. repeat split; vm_compute; reflexivity. Qed.

(** ** The instance cache *)

Lemma odict_get_set {K V : Type} `{EqDecision K} (k : K) (v : V)
    (d : odict K V) :
  odict_get k (odict_set k v d) = Some v.
Proof.
  induction d as [|[k' v'] d IH]; simpl.
  - rewrite decide_True by reflexivity. reflexivity.
  - destruct (decide (k = k')) as [->|Hne]; simpl.
    + rewrite decide_True by reflexivity. reflexivity.
    + rewrite decide_False by assumption. exact IH.
Qed.

Section instance_cache_facts.
Context {token : Type} `{EqDecision token}.
Context (cls : fs_class).
Context (tokenize :
  fs_class -> Z -> Z -> list pyval -> list pyval -> odict string pyval -> token).
Context (apply_config : fs_class -> odict string pyval -> odict string pyval).
Context (extra_tokens : list pyval).

Local Abbreviation call := (__call__ cls tokenize apply_config extra_tokens).

Local Abbreviation skips := (skips cls apply_config).

(** X1. In the process that the class has on record, for a cachable
    class and without [skip_instance_cache], a second construction in
    the same thread with the same arguments and the same options in the
    same order returns the object of the first and changes nothing: the
    instance cache is idempotent there. *)
Theorem call_twice_same_object (proc : process) (args : list pyval)
    (kwargs : odict string pyval) (w : world token) :
  cachable cls = true -> skips kwargs = false -> getpid proc = _pid w ->
  call proc args kwargs (fst (call proc args kwargs w))
  = (fst (call proc args kwargs w), snd (call proc args kwargs w)).
Proof.
  intros Hc Hskip Hpid. unfold skips in Hskip. unfold __call__.
  destruct (odict_pop "skip_instance_cache" (VBool false)
              (apply_config cls kwargs)) as [skip kw] eqn:Hpop.
  simpl in Hskip. rewrite Hskip, Hc.
  rewrite (bool_decide_eq_false_2 (getpid proc <> _pid w))
    by (intros Hne; apply Hne, Hpid).
  cbn [negb andb].
  destruct (odict_get _ (_cache w)) as [obj|] eqn:Hget.
  - cbn [fst snd].
    rewrite (bool_decide_eq_false_2 (getpid proc <> _pid w))
      by (intros Hne; apply Hne, Hpid).
    rewrite Hget. reflexivity.
  - cbn [fst snd _pid _cache objects].
    rewrite (bool_decide_eq_false_2 (getpid proc <> _pid w))
      by (intros Hne; apply Hne, Hpid).
    cbn [fst snd _pid _cache objects].
    rewrite odict_get_set. reflexivity.
Qed.

(** C4. In a process other than the one the class has on record (a
    forked child), the token of the first construction is computed with
    the recorded pid before the record is refreshed, the token of the
    second with the new pid: when [tokenize] tells the two pids apart,
    the second construction misses the cache and builds another object,
    although the class is cachable, [skip_instance_cache] is not set and
    process, thread, arguments and options are the same. *)
Theorem call_twice_after_fork (proc : process) (args : list pyval)
    (kwargs : odict string pyval) (w : world token)
    (Hcachable : cachable cls = true)
    (Hskip : skips kwargs = false)
    (Hfork : getpid proc <> _pid w)
    (Htokens :
       tokenize cls (getpid proc) (get_ident proc) args extra_tokens
         (apply_config cls kwargs)
       <> tokenize cls (_pid w) (get_ident proc) args extra_tokens
            (apply_config cls kwargs)) :
  snd (call proc args kwargs w) = length (objects w)
  /\ snd (call proc args kwargs (fst (call proc args kwargs w)))
     = S (length (objects w)).
Proof.
  unfold skips in Hskip. unfold __call__.
  destruct (odict_pop "skip_instance_cache" (VBool false)
              (apply_config cls kwargs)) as [skip kw] eqn:Hpop.
  simpl in Hskip. rewrite Hskip, Hcachable.
  rewrite bool_decide_eq_true_2 by assumption.
  cbn [negb andb odict_get _cache objects _pid fst snd].
  split; [reflexivity|].
  rewrite bool_decide_eq_false_2 by (intros Hne; apply Hne; reflexivity).
  cbn [negb andb odict_get odict_set _cache objects _pid fst snd].
  rewrite decide_False by assumption.
  cbn [snd objects]. rewrite length_app. simpl. lia.
Qed.

End instance_cache_facts.

Lemma call_twice_same_object_witness :
  sample_call parent_process []
    (fst (sample_call parent_process [] fresh_world))
  = (fst (sample_call parent_process [] fresh_world),
     snd (sample_call parent_process [] fresh_world)).
Proof.
  apply (call_twice_same_object AbstractFileSystem sample_tokenize no_config
           [] parent_process [] [] fresh_world);
    reflexivity.
Defined.

Lemma call_twice_after_fork_witness :
  snd (sample_call child_process [] fresh_world) = 0%nat
  /\ snd (sample_call child_process []
            (fst (sample_call child_process [] fresh_world))) = 1%nat.
Proof.
  apply (call_twice_after_fork AbstractFileSystem sample_tokenize no_config []
           child_process [] [] fresh_world);
    [reflexivity | reflexivity | discriminate | discriminate].
Defined.

(** The same two constructions in the process on record share their
    object; with [skip_instance_cache] set each builds its own and the
    cache stays empty. *)
Example call_twice_examples :
  snd (sample_call parent_process [] fresh_world) = 0%nat
  /\ snd (sample_call parent_process []
            (fst (sample_call parent_process [] fresh_world))) = 0%nat
  /\ (let skip := [("skip_instance_cache", VBool true)] in
      let w1 := fst (sample_call parent_process skip fresh_world) in
      snd (sample_call parent_process skip w1) = 1%nat
      /\ _cache (fst (sample_call parent_process skip w1)) = []).
Proof. repeat split. Qed.

(** ** Slices *)

Lemma length_take (n : nat) (s : string) :
  String.length (PyStr.take n s) = Nat.min n (String.length s).
Proof.
  revert s. induction n as [|n IH]; intros [|c s]; simpl; try reflexivity.
  rewrite IH. reflexivity.
Qed.

Lemma length_drop (n : nat) (s : string) :
  String.length (PyStr.drop n s) = (String.length s - n)%nat.
Proof.
  revert s. induction n as [|n IH]; intros [|c s]; simpl; try reflexivity.
  apply IH.
Qed.

Lemma take_drop (n : nat) (s : string) : PyStr.take n s ++ PyStr.drop n s = s.
Proof.
  revert s. induction n as [|n IH]; intros [|c s]; simpl; try reflexivity.
  rewrite append_cons, IH. reflexivity.
Qed.

Lemma take_append (a b : string) : PyStr.take (String.length a) (a ++ b) = a.
Proof.
  induction a as [|x a IH]; [destruct b; reflexivity|].
  rewrite append_cons. simpl. rewrite IH. reflexivity.
Qed.

Lemma take_all (n : nat) (s : string) :
  (String.length s <= n)%nat -> PyStr.take n s = s.
Proof.
  revert s. induction n as [|n IH]; intros [|c s] H; simpl in *;
    try reflexivity; try lia.
  rewrite IH by lia. reflexivity.
Qed.

Lemma drop_all (n : nat) (s : string) :
  (String.length s <= n)%nat -> PyStr.drop n s = "".
Proof.
  revert s. induction n as [|n IH]; intros [|c s] H; simpl in *;
    try reflexivity; try lia.
  apply IH. lia.
Qed.

Lemma take_take (n m : nat) (s : string) :
  PyStr.take n (PyStr.take m s) = PyStr.take (Nat.min n m) s.
Proof.
  revert m s. induction n as [|n IH]; intros [|m] [|c s]; simpl;
    try reflexivity.
  rewrite IH. reflexivity.
Qed.

Lemma drop_take (a m : nat) (s : string) :
  PyStr.drop a (PyStr.take m s) = PyStr.take (m - a) (PyStr.drop a s).
Proof.
  revert m s. induction a as [|a IH]; intros m s.
  - rewrite Nat.sub_0_r. reflexivity.
  - destruct m as [|m], s as [|c s]; simpl; try reflexivity.
    + destruct (m - a)%nat; reflexivity.
    + apply IH.
Qed.

Lemma drop_drop (a b : nat) (s : string) :
  PyStr.drop a (PyStr.drop b s) = PyStr.drop (b + a) s.
Proof.
  revert s. induction b as [|b IH]; intros s; [reflexivity|].
  destruct s as [|c s]; simpl; [destruct a; reflexivity | apply IH].
Qed.

Lemma drop_length_take (n : nat) (s : string) :
  PyStr.drop (String.length (PyStr.take n s)) s = PyStr.drop n s.
Proof.
  revert s. induction n as [|n IH]; intros [|c s]; simpl; try reflexivity.
  apply IH.
Qed.

Lemma len_append (a b : string) : PyStr.len (a ++ b) = PyStr.len a + PyStr.len b.
Proof. unfold PyStr.len. rewrite length_append. lia. Qed.

Lemma len_nonneg (s : string) : 0 <= PyStr.len s.
Proof. unfold PyStr.len. lia. Qed.

Lemma len_zero (s : string) : PyStr.len s = 0 -> s = "".
Proof. destruct s; [reflexivity | unfold PyStr.len; simpl; lia]. Qed.

(** [s[:k]] for [0 <= k]. *)
Lemma slice_to (s : string) (k : Z) :
  0 <= k -> PyStr.slice s None (Some k) = PyStr.take (Z.to_nat k) s.
Proof.
  intros Hk. unfold PyStr.slice, PyStr.clip.
  rewrite (proj2 (Z.ltb_ge k 0)) by lia. rewrite Z.sub_0_r. simpl PyStr.drop.
  unfold PyStr.len.
  destruct (Z.min_spec k (Z.of_nat (String.length s))) as [[_ ->]|[Hle ->]];
    [reflexivity|].
  rewrite Nat2Z.id. rewrite !take_all by lia. reflexivity.
Qed.

(** [s[a:b]] for [0 <= a]. *)
Lemma slice_from_to (s : string) (a b : Z) :
  0 <= a -> 0 <= b ->
  PyStr.slice s (Some a) (Some b)
  = PyStr.take (Z.to_nat b - Z.to_nat a) (PyStr.drop (Z.to_nat a) s).
Proof.
  intros Ha Hb. unfold PyStr.slice, PyStr.clip, PyStr.len.
  rewrite (proj2 (Z.ltb_ge a 0)), (proj2 (Z.ltb_ge b 0)) by lia.
  set (l := String.length s).
  destruct (Nat.le_gt_cases (Z.to_nat a) l) as [Hal|Hal].
  - replace (Z.to_nat (Z.min a (Z.of_nat l))) with (Z.to_nat a) by lia.
    destruct (Nat.le_gt_cases (Z.to_nat b) l) as [Hbl|Hbl].
    + f_equal. lia.
    + rewrite (take_all (Z.to_nat b - Z.to_nat a))
        by (rewrite length_drop; fold l; lia).
      apply take_all. rewrite length_drop. fold l. lia.
  - rewrite (drop_all (Z.to_nat a)) by (fold l; lia).
    rewrite (drop_all (Z.to_nat (Z.min a (Z.of_nat l)))) by (fold l; lia).
    destruct (Z.to_nat (Z.min b (Z.of_nat l) - Z.min a (Z.of_nat l)));
      destruct (Z.to_nat b - Z.to_nat a)%nat; reflexivity.
Qed.

(** ** Searching *)

Lemma prefix_length (a s : string) :
  String.prefix a s = true -> (String.length a <= String.length s)%nat.
Proof.
  revert s. induction a as [|x a IH]; intros [|y s] H; simpl in *;
    try lia; try discriminate.
  destruct (ascii_dec x y); [|discriminate]. specialize (IH s H). lia.
Qed.

Lemma prefix_empty (s : string) : String.prefix "" s = true.
Proof. destruct s; reflexivity. Qed.

(** An occurrence found lies inside the string. *)
Lemma find_from_bound (sub s : string) (i : Z) :
  PyStr.find_from i sub s = -1
  \/ (i <= PyStr.find_from i sub s
      /\ PyStr.find_from i sub s - i + PyStr.len sub <= PyStr.len s).
Proof.
  revert i. induction s as [|c s IH]; intros i.
  - cbn [PyStr.find_from]. destruct (String.prefix sub "") eqn:Hp;
      [|left; reflexivity].
    right. apply prefix_length in Hp. unfold PyStr.len. lia.
  - cbn [PyStr.find_from]. destruct (String.prefix sub (String c s)) eqn:Hp.
    + right. apply prefix_length in Hp. unfold PyStr.len. lia.
    + destruct (IH (i + 1)) as [->|[Hle Hlen]]; [left; reflexivity|].
      right. unfold PyStr.len in *. simpl String.length. lia.
Qed.

Lemma find_bound (s sub : string) :
  0 <= PyStr.find s sub -> PyStr.find s sub + PyStr.len sub <= PyStr.len s.
Proof.
  unfold PyStr.find. destruct (find_from_bound sub s 0) as [->|[_ H]]; lia.
Qed.

Lemma mem_char_append (c : ascii) (a b : string) :
  PyStr.mem_char c (a ++ b) = PyStr.mem_char c a || PyStr.mem_char c b.
Proof.
  induction a as [|x a IH]; [reflexivity|].
  rewrite append_cons. simpl. rewrite IH, orb_assoc. reflexivity.
Qed.

(** Searching for a single character: where it is found, it is found
    for the first time. *)
Lemma find_from_single (c : ascii) (s : string) (i : Z) :
  (PyStr.find_from i (String c "") s = -1 /\ PyStr.mem_char c s = false)
  \/ (exists p1 p2,
        s = p1 ++ String c p2
        /\ PyStr.mem_char c p1 = false
        /\ PyStr.find_from i (String c "") s = i + PyStr.len p1).
Proof.
  revert i. induction s as [|x s IH]; intros i.
  - left. split; reflexivity.
  - cbn [PyStr.find_from String.prefix PyStr.mem_char].
    destruct (ascii_dec c x) as [->|Hne].
    + right. exists "", s. rewrite prefix_empty.
      repeat split. unfold PyStr.len. simpl. lia.
    + replace (Ascii.eqb c x) with false
        by (symmetry; apply Ascii.eqb_neq, Hne).
      destruct (IH (i + 1)) as [[-> Hs]|(p1 & p2 & -> & Hp1 & ->)].
      * left. split; [reflexivity | exact Hs].
      * right. exists (String x p1), p2. rewrite append_cons.
        split; [reflexivity|]. split.
        -- simpl. replace (Ascii.eqb c x) with false
             by (symmetry; apply Ascii.eqb_neq, Hne). exact Hp1.
        -- unfold PyStr.len. simpl String.length. lia.
Qed.

(** ** Reading *)

Lemma concat_snoc (out : list string) (x : string) :
  String.concat "" (out ++ [x]) = String.concat "" out ++ x.
Proof.
  induction out as [|y out IH]; [reflexivity|].
  change ((y :: out) ++ [x])%list with (y :: (out ++ [x]))%list.
  destruct out as [|z out].
  - simpl. reflexivity.
  - change (String.concat "" (y :: (z :: out) ++ [x]))
      with (y ++ String.concat "" ((z :: out) ++ [x])).
    rewrite IH.
    change (String.concat "" (y :: z :: out))
      with (y ++ String.concat "" (z :: out)).
    rewrite append_assoc. reflexivity.
Qed.

Section reading.
Context {B : Type}.
Implicit Types f : file B.

Lemma set_loc_same f : set_loc (loc f) f = f.
Proof. destruct f; reflexivity. Qed.

(** The cache hands out the next bytes of what remains. *)
Lemma cache_fetch_remaining f (stop : Z) :
  0 <= loc f ->
  cache_fetch f (loc f) stop
  = PyStr.take (Z.to_nat (stop - loc f)) (remaining f).
Proof.
  intros Hloc. unfold cache_fetch, remaining.
  destruct (size f <=? loc f) eqn:Hsize; cbn [orb].
  - apply Z.leb_le in Hsize. rewrite drop_all; [|rewrite length_take; lia].
    destruct (Z.to_nat (stop - loc f)); reflexivity.
  - apply Z.leb_gt in Hsize.
    destruct (stop <=? loc f) eqn:Hstop.
    + apply Z.leb_le in Hstop.
      replace (Z.to_nat (stop - loc f)) with 0%nat by lia.
      destruct (PyStr.drop _ _); reflexivity.
    + apply Z.leb_gt in Hstop.
      rewrite slice_from_to by lia. rewrite drop_take, take_take.
      f_equal. lia.
Qed.

(** A successful [read] returns a prefix of what remains and moves the
    position past it. *)
Lemma read_remaining (n : Z) f f' (part : string) :
  0 <= loc f ->
  read (Some n) f = (f', Ok part) ->
  f' = set_loc (loc f + PyStr.len part) f
  /\ remaining f = part ++ remaining f'
  /\ String.eqb (mode f) "rb" = true.
Proof.
  intros Hloc. unfold read.
  destruct (String.eqb (mode f) "rb") eqn:Hmode; cbn [negb]; [|discriminate].
  destruct (closed f); [discriminate|].
  set (length := if n <? 0 then size f - loc f else n).
  destruct (length =? 0).
  - intros [= <- <-]. change (PyStr.len "") with 0. rewrite Z.add_0_r.
    rewrite set_loc_same. repeat split.
  - rewrite cache_fetch_remaining by assumption.
    set (k := Z.to_nat (loc f + length - loc f)).
    intros [= <- <-]. split; [reflexivity|]. split; [|reflexivity].
    unfold remaining at 3. cbn [loc size content set_loc].
    replace (Z.to_nat (loc f + PyStr.len (PyStr.take k (remaining f))))
      with (Z.to_nat (loc f) + String.length (PyStr.take k (remaining f)))%nat
      by (unfold PyStr.len; lia).
    rewrite <- drop_drop. fold (remaining f).
    rewrite drop_length_take. symmetry. apply take_drop.
Qed.

Lemma seek_start (n : Z) f f' (v : Z) :
  seek n 0 f = (f', Ok v) -> f' = set_loc n f.
Proof.
  unfold seek. destruct (negb (String.eqb (mode f) "rb")); [discriminate|].
  cbn [Z.eqb]. destruct (n <? 0); [discriminate|]. intros [= <- _]. reflexivity.
Qed.

(** What one run of the loop adds to [out] and how far it moves. *)
Lemma readuntil_loop_result (fuel : nat) (char : string) (blocks : option Z)
    (out : list string) f f' (r : string) :
  0 <= loc f ->
  readuntil_loop fuel char blocks out f = Some (f', Ok r) ->
  exists tail,
    r = String.concat "" out ++ tail
    /\ loc f' = loc f + PyStr.len tail
    /\ String.prefix tail (remaining f) = true.
Proof.
  revert out f. induction fuel as [|fuel IH]; intros out f Hloc; [discriminate|].
  cbn [readuntil_loop]. unfold tell.
  destruct (read (Some (block_length blocks f)) f) as [f1 [part|e]] eqn:Hread;
    [|discriminate].
  destruct (read_remaining _ _ _ _ Hloc Hread) as (Hf1 & Hrem & _).
  destruct (PyStr.len part =? 0) eqn:Hempty.
  - intros [= <- <-]. apply Z.eqb_eq in Hempty.
    exists "". rewrite append_empty_r, prefix_empty, Hf1. cbn [loc set_loc].
    change (PyStr.len "") with 0. repeat split. lia.
  - destruct (-1 <? PyStr.find part char) eqn:Hfound.
    + apply Z.ltb_lt in Hfound.
      destruct (seek _ 0 f1) as [f2 [v|e]] eqn:Hseek; [|discriminate].
      intros [= <- <-]. apply seek_start in Hseek.
      assert (Hbound := find_bound part char ltac:(lia)).
      assert (Hchar := len_nonneg char).
      rewrite concat_snoc, slice_to by lia.
      set (k := Z.to_nat (PyStr.find part char + PyStr.len char)).
      exists (PyStr.take k part). split; [reflexivity|].
      assert (Hk : PyStr.len (PyStr.take k part)
                   = PyStr.find part char + PyStr.len char).
      { unfold PyStr.len in *. rewrite length_take. lia. }
      split.
      * rewrite Hseek. cbn [loc set_loc]. lia.
      * rewrite Hrem.
        replace (part ++ remaining f1)
          with (PyStr.take k part ++ (PyStr.drop k part ++ remaining f1))
          by (rewrite <- append_assoc, take_drop; reflexivity).
        apply prefix_append.
    + intros Hloop.
      assert (Hloc1 : 0 <= loc f1)
        by (rewrite Hf1; cbn [loc set_loc]; pose proof (len_nonneg part); lia).
      destruct (IH _ _ Hloc1 Hloop) as (tail & -> & Hpos & Hpre).
      exists (part ++ tail). rewrite concat_snoc, append_assoc.
      split; [reflexivity|]. split.
      * rewrite Hpos, Hf1, len_append. cbn [loc set_loc]. lia.
      * rewrite Hrem, prefix_append_same. exact Hpre.
Qed.

(** With a one-byte delimiter, what the loop adds either does not hold
    the delimiter or ends with its first occurrence. *)
Lemma readuntil_loop_single (fuel : nat) (c : ascii) (blocks : option Z)
    (out : list string) f f' (r : string) :
  0 <= loc f ->
  readuntil_loop fuel (String c "") blocks out f = Some (f', Ok r) ->
  exists tail,
    r = String.concat "" out ++ tail
    /\ (PyStr.mem_char c tail = false
        \/ exists pre, tail = pre ++ String c ""
                       /\ PyStr.mem_char c pre = false).
Proof.
  revert out f. induction fuel as [|fuel IH]; intros out f Hloc; [discriminate|].
  cbn [readuntil_loop]. unfold tell.
  destruct (read (Some (block_length blocks f)) f) as [f1 [part|e]] eqn:Hread;
    [|discriminate].
  destruct (read_remaining _ _ _ _ Hloc Hread) as (Hf1 & Hrem & _).
  destruct (PyStr.len part =? 0) eqn:Hempty.
  - intros [= <- <-]. exists "". rewrite append_empty_r.
    split; [reflexivity | left; reflexivity].
  - unfold PyStr.find.
    destruct (find_from_single c part 0)
      as [[Hnone Habsent]|(p1 & p2 & Hpart & Hp1 & Hat)].
    + rewrite Hnone. cbn [Z.ltb Z.compare]. intros Hloop.
      assert (Hloc1 : 0 <= loc f1)
        by (rewrite Hf1; cbn [loc set_loc]; pose proof (len_nonneg part); lia).
      destruct (IH _ _ Hloc1 Hloop) as (tail & -> & Htail).
      exists (part ++ tail). rewrite concat_snoc, append_assoc.
      split; [reflexivity|].
      destruct Htail as [Htail|(pre & -> & Hpre)].
      * left. rewrite mem_char_append, Habsent, Htail. reflexivity.
      * right. exists (part ++ pre). rewrite append_assoc.
        split; [reflexivity|]. rewrite mem_char_append, Habsent, Hpre.
        reflexivity.
    + rewrite Hat. pose proof (len_nonneg p1) as Hp1len.
      replace (-1 <? 0 + PyStr.len p1) with true
        by (symmetry; apply Z.ltb_lt; lia).
      destruct (seek _ 0 f1) as [f2 [v|e]]; [|discriminate].
      intros [= <- <-]. rewrite concat_snoc, slice_to
        by (change (PyStr.len (String c "")) with 1; lia).
      exists (p1 ++ String c ""). split.
      * f_equal. rewrite Hpart.
        replace (Z.to_nat (0 + PyStr.len p1 + PyStr.len (String c "")))
          with (String.length (p1 ++ String c ""))
          by (rewrite length_append; unfold PyStr.len; simpl; lia).
        change (String c p2) with (String c "" ++ p2).
        rewrite <- append_assoc. apply take_append.
      * right. exists p1. split; [reflexivity | exact Hp1].
Qed.

End reading.

(** ** [readuntil] *)

Section readuntil_facts.
Context {B : Type}.
Implicit Types f : file B.

Lemma readuntil_loop_terminates (fuel : nat) (char : string)
    (blocks : option Z) (out : list string) f :
  0 <= loc f ->
  (String.length (remaining f) < fuel)%nat ->
  exists res, readuntil_loop fuel char blocks out f = Some res.
Proof.
  revert out f. induction fuel as [|fuel IH]; intros out f Hloc Hfuel; [lia|].
  cbn [readuntil_loop]. unfold tell.
  destruct (read (Some (block_length blocks f)) f) as [f1 [part|e]] eqn:Hread;
    [|eauto].
  destruct (read_remaining _ _ _ _ Hloc Hread) as (Hf1 & Hrem & _).
  destruct (PyStr.len part =? 0) eqn:Hempty; [eauto|].
  destruct (-1 <? PyStr.find part char).
  - destruct (seek _ 0 f1) as [f2 [v|e]]; eauto.
  - apply Z.eqb_neq in Hempty. apply IH.
    + rewrite Hf1. cbn [loc set_loc]. pose proof (len_nonneg part). lia.
    + rewrite Hrem, length_append in Hfuel. unfold PyStr.len in Hempty. lia.
Qed.

(** X4. [readuntil] returns (or raises) on every file: the loop takes
    at most one turn per remaining byte, and one more. *)
Theorem readuntil_terminates (char : string) (blocks : option Z) f
    (Hloc : 0 <= loc f) :
  exists res,
    readuntil (S (String.length (content f))) char blocks f = Some res.
Proof.
  apply readuntil_loop_terminates; [exact Hloc|].
  unfold remaining. rewrite length_drop, length_take. lia.
Qed.

(** X2. Whatever the delimiter, the bytes [readuntil] returns are the
    next bytes of the file and the position afterwards is the starting
    position plus their number, although whole blocks were read. *)
Theorem readuntil_position (fuel : nat) (char : string) (blocks : option Z)
    f f' (r : string)
    (Hloc : 0 <= loc f)
    (Hret : readuntil fuel char blocks f = Some (f', Ok r)) :
  loc f' = loc f + PyStr.len r
  /\ String.prefix r (remaining f) = true.
Proof.
  destruct (readuntil_loop_result _ _ _ _ _ _ _ Hloc Hret)
    as (tail & -> & Hpos & Hpre).
  split; assumption.
Qed.

(** X3. With a delimiter of one byte, a result of [readuntil] that
    holds the delimiter ends with its first occurrence. *)
Theorem readuntil_single_byte (fuel : nat) (c : ascii) (blocks : option Z)
    f f' (r : string)
    (Hloc : 0 <= loc f)
    (Hret : readuntil fuel (String c "") blocks f = Some (f', Ok r))
    (Hocc : PyStr.mem_char c r = true) :
  exists pre, r = pre ++ String c "" /\ PyStr.mem_char c pre = false.
Proof.
  destruct (readuntil_loop_single _ _ _ _ _ _ _ Hloc Hret)
    as (tail & -> & [Habsent|Hfound]);
    change (String.concat "" [] ++ tail) with tail in *.
  - congruence.
  - exact Hfound.
Qed.

End readuntil_facts.

Lemma readuntil_terminates_witness :
  exists res, readuntil 7 "bX" None sample_reader = Some res.
Proof.
  apply (readuntil_terminates "bX" None sample_reader). simpl. lia.
Defined.

Lemma readuntil_position_witness :
  loc (set_loc 4 sample_reader) = loc sample_reader + PyStr.len "abXY"
  /\ String.prefix "abXY" (remaining sample_reader) = true.
Proof.
  apply (readuntil_position 10 "XY" None sample_reader
           (set_loc 4 sample_reader) "abXY").
  - simpl. lia.
  - reflexivity.
Defined.

Lemma readuntil_single_byte_witness :
  exists pre, "abX" = pre ++ "X" /\ PyStr.mem_char "X" pre = false.
Proof.
  apply (readuntil_single_byte 10 "X" None sample_reader
           (set_loc 3 sample_reader) "abX").
  - simpl. lia.
  - reflexivity.
  - reflexivity.
Defined.


(** C10. [readuntil] looks for the delimiter in each block on its own.
    On the six bytes [abXYcd] read in blocks of two, the delimiter [bX]
    lies across the first two blocks: no block holds it, the loop runs
    to the end of the file and returns all six bytes. The delimiter
    occurs in the result (at index 1), yet the result does not end with
    its first occurrence, which would make it [abX]; the position
    afterwards is the start plus the length of the result. *)
Theorem readuntil_misses_straddling_delimiter :
  readuntil 10 "bX" None sample_reader
  = Some (set_loc 6 sample_reader, Ok "abXYcd")
  /\ PyStr.find "abXYcd" "bX" = 1
  /\ PyStr.slice (content sample_reader) (Some (loc sample_reader))
       (Some (loc sample_reader + 1 + PyStr.len "bX")) = "abX"
  /\ "abXYcd" <> "abX"
  /\ loc (set_loc 6 sample_reader)
     = loc sample_reader + PyStr.len "abXYcd".
Proof. repeat split. discriminate. Qed.

(** With the delimiter inside a block the result ends with it and the
    next read starts right behind it, although a whole block was
    read. *)
Example readuntil_examples :
  readuntil 10 "X" None sample_reader
  = Some (set_loc 3 sample_reader, Ok "abX")
  /\ readuntil 10 "XY" None sample_reader
     = Some (set_loc 4 sample_reader, Ok "abXY")
  /\ readuntil 10 "Yc" (Some 5) sample_reader
     = Some (set_loc 5 sample_reader, Ok "abXYc")
  /\ readuntil 10 "Yc" None sample_reader
     = Some (set_loc 6 sample_reader, Ok "abXYcd")
  /\ readuntil 10 "z" None sample_reader
     = Some (set_loc 6 sample_reader, Ok "abXYcd")
  /\ snd (read (Some 4) (set_loc 3 sample_reader)) = Ok "Ycd".
Proof. repeat split. Qed.

(** * Further properties *)

(** ** Paths *)

Lemma rstrip_only (chars t : string) :
  only_chars chars t = true -> PyStr.rstrip chars t = "".
Proof.
  induction t as [|c t IH]; [reflexivity|]. simpl.
  intros [Hc Ht]%andb_true_iff. rewrite (IH Ht), Hc. reflexivity.
Qed.

Lemma rstrip_append_only (chars s t : string) :
  only_chars chars t = true ->
  PyStr.rstrip chars (s ++ t) = PyStr.rstrip chars s.
Proof.
  intros Ht. induction s as [|c s IH]; [apply rstrip_only, Ht|].
  rewrite append_cons. cbn [PyStr.rstrip]. rewrite IH. reflexivity.
Qed.

Lemma rstrip_idempotent (chars s : string) :
  PyStr.rstrip chars (PyStr.rstrip chars s) = PyStr.rstrip chars s.
Proof.
  induction s as [|c s IH]; [reflexivity|]. cbn [PyStr.rstrip].
  destruct (PyStr.rstrip chars s) as [|d r] eqn:Hr.
  - destruct (PyStr.mem_char c chars) eqn:Hc; [reflexivity|].
    cbn [PyStr.rstrip]. rewrite Hc. reflexivity.
  - change (PyStr.rstrip chars (String c (String d r)))
      with (match PyStr.rstrip chars (String d r) with
            | "" => if PyStr.mem_char c chars then "" else String c ""
            | String a b => String c (String a b)
            end).
    rewrite IH. reflexivity.
Qed.

Lemma rstrip_append_keep (chars a b : string) :
  PyStr.rstrip chars b <> "" ->
  PyStr.rstrip chars (a ++ b) = a ++ PyStr.rstrip chars b.
Proof.
  intros Hb. induction a as [|c a IH]; [reflexivity|].
  rewrite !append_cons. cbn [PyStr.rstrip]. rewrite IH.
  destruct (a ++ PyStr.rstrip chars b) as [|d r] eqn:Hab; [|reflexivity].
  destruct a; [|discriminate]. contradiction.
Qed.

Lemma mem_char_single (x c : ascii) :
  PyStr.mem_char x (String c "") = Ascii.eqb x c.
Proof. simpl. apply orb_false_r. Qed.

(** A string without the character is left alone by [rstrip]. *)
Lemma rstrip_absent (c : ascii) (b : string) :
  PyStr.mem_char c b = false -> PyStr.rstrip (String c "") b = b.
Proof.
  induction b as [|x b IH]; [reflexivity|].
  intros H. simpl in H. apply orb_false_iff in H as [Hx Hb].
  cbn [PyStr.rstrip]. rewrite (IH Hb), mem_char_single.
  rewrite Ascii.eqb_sym, Hx. destruct b; reflexivity.
Qed.

Lemma rfind_from_absent (c : ascii) (s : string) (i : Z) :
  PyStr.mem_char c s = false -> PyStr.rfind_from i (String c "") s = -1.
Proof.
  revert i. induction s as [|x s IH]; intros i; [reflexivity|].
  intros H. simpl in H. apply orb_false_iff in H as [Hx Hs].
  cbn [PyStr.rfind_from String.prefix]. rewrite (IH _ Hs).
  cbn [Z.leb Z.compare].
  destruct (ascii_dec c x) as [->|]; [|reflexivity].
  rewrite Ascii.eqb_refl in Hx. discriminate.
Qed.

(** The last separator of [a/b] is the one written, when [b] has none. *)
Lemma rfind_from_last (c : ascii) (a b : string) (i : Z) :
  0 <= i -> PyStr.mem_char c b = false ->
  PyStr.rfind_from i (String c "") (a ++ String c b) = i + PyStr.len a.
Proof.
  intros Hi Hb. revert i Hi. induction a as [|x a IH]; intros i Hi.
  - change ("" ++ String c b) with (String c b).
    cbn [PyStr.rfind_from String.prefix]. rewrite (rfind_from_absent _ _ _ Hb).
    cbn [Z.leb Z.compare]. destruct (ascii_dec c c); [|congruence].
    rewrite prefix_empty. unfold PyStr.len. simpl. lia.
  - rewrite append_cons. cbn [PyStr.rfind_from]. rewrite IH by lia.
    pose proof (len_nonneg a).
    rewrite (proj2 (Z.leb_le 0 (i + 1 + PyStr.len a))) by lia.
    unfold PyStr.len. simpl String.length. lia.
Qed.

Lemma contains_char (c : ascii) (s : string) :
  PyStr.contains s (String c "") = PyStr.mem_char c s.
Proof.
  unfold PyStr.contains, PyStr.find.
  destruct (find_from_single c s 0) as [[-> ->]|(p1 & p2 & -> & Hp1 & ->)].
  - reflexivity.
  - rewrite mem_char_append, Hp1. simpl. rewrite Ascii.eqb_refl. simpl.
    apply Z.leb_le. pose proof (len_nonneg p1). lia.
Qed.

(** X5. Trailing slashes do not matter to [_parent]: the parent of
    [p] followed by any number of slashes is the parent of [p]. *)
Theorem parent_ignores_trailing_slashes (cls : fs_class) (p slashes : string)
    (Hslashes : only_chars "/" slashes = true) :
  _parent cls (p ++ slashes) = _parent cls p.
Proof.
  unfold _parent. rewrite (rstrip_append_only "/" p slashes Hslashes).
  reflexivity.
Qed.

Lemma parent_ignores_trailing_slashes_witness :
  _parent memfs ("/a/b" ++ "//") = _parent memfs "/a/b".
Proof.
  apply (parent_ignores_trailing_slashes memfs "/a/b" "//"). reflexivity.
Defined.

(** [_strip_protocol] is not that indifferent: a slash appended to
    [abstract:/] completes the protocol prefix. *)
Example strip_protocol_trailing_slash :
  _strip_protocol AbstractFileSystem "abstract:/" = "abstract:"
  /\ _strip_protocol AbstractFileSystem ("abstract:/" ++ "/") = "".
Proof. split; reflexivity. Qed.

(** X6. For a path [a/b] that protocol stripping leaves unchanged, [b]
    being a non-empty name without slash, [_parent] is [a] with its
    leading [root_marker] characters replaced by [root_marker]; on a
    class with an empty [root_marker] it is [a] itself. *)
Theorem parent_of_child (cls : fs_class) (a b : string)
    (Hb : b <> "")
    (Hname : PyStr.mem_char "/" b = false)
    (Hstrip : _strip_protocol cls (a ++ "/" ++ b) = a ++ "/" ++ b) :
  _parent cls (a ++ "/" ++ b)
  = root_marker cls ++ PyStr.lstrip (root_marker cls) a
  /\ (root_marker cls = "" -> _parent cls (a ++ "/" ++ b) = a).
Proof.
  assert (Hpath : PyStr.rstrip "/" (a ++ "/" ++ b) = a ++ "/" ++ b).
  { rewrite <- append_assoc.
    rewrite rstrip_append_keep; rewrite (rstrip_absent "/" b Hname);
      [reflexivity | exact Hb]. }
  assert (Hparent : _parent cls (a ++ "/" ++ b)
                    = root_marker cls ++ PyStr.lstrip (root_marker cls) a).
  { unfold _parent. rewrite Hpath, Hstrip.
    rewrite (contains_char "/"), mem_char_append.
    replace (PyStr.mem_char "/" ("/" ++ b)) with true by reflexivity.
    rewrite orb_true_r. unfold PyStr.rsplit1, PyStr.rfind.
    change ("/" ++ b) with (String "/" b).
    rewrite rfind_from_last by (lia || assumption).
    pose proof (len_nonneg a) as Hlen.
    rewrite (proj2 (Z.ltb_ge (0 + PyStr.len a) 0)) by lia.
    cbn [hd]. unfold PyStr.len. rewrite Z.add_0_l, Nat2Z.id, take_append.
    reflexivity. }
  split; [exact Hparent|].
  intros Hroot. rewrite Hparent, Hroot. destruct a; reflexivity.
Qed.

Lemma parent_of_child_witness :
  _parent memfs ("/a/b" ++ "/" ++ "c.txt")
  = root_marker memfs ++ PyStr.lstrip (root_marker memfs) "/a/b"
  /\ (root_marker memfs = "" -> _parent memfs ("/a/b" ++ "/" ++ "c.txt") = "/a/b").
Proof.
  apply (parent_of_child memfs "/a/b" "c.txt");
    [discriminate | reflexivity | reflexivity].
Defined.

(** ** Loops that may raise *)

Lemma filterM_Forall {A} (p : A -> res bool) (l l' : list A) :
  filterM p l = Ok l' -> Forall (fun x => p x = Ok true) l'.
Proof.
  revert l'. induction l as [|x l IH]; intros l'; cbn [filterM].
  - intros [= <-]. constructor.
  - destruct (p x) as [b|e] eqn:Hp; [|discriminate]. cbn [bind].
    destruct (filterM p l) as [ys|e]; [|discriminate]. cbn [bind].
    intros [= <-]. destruct b; [constructor; [exact Hp|]|]; apply IH; reflexivity.
Qed.

Lemma foldM_raise {A S} (f : S -> A -> res S) (l : list A) (s : S) (e : exn) :
  foldM f l s = Raise e -> exists s' x, f s' x = Raise e.
Proof.
  revert s. induction l as [|x l IH]; intros s; cbn [foldM]; [discriminate|].
  destruct (f s x) as [s1|e1] eqn:Hf; cbn [bind].
  - apply IH.
  - intros [= <-]. eauto.
Qed.

Lemma foldM_invariant {A S} (P : S -> Prop) (f : S -> A -> res S)
    (l : list A) (s s' : S) :
  (forall s x s', P s -> f s x = Ok s' -> P s') ->
  P s -> foldM f l s = Ok s' -> P s'.
Proof.
  intros Hstep. revert s. induction l as [|x l IH]; intros s Hs; cbn [foldM].
  - intros [= <-]. exact Hs.
  - destruct (f s x) as [s1|e] eqn:Hf; cbn [bind]; [|discriminate].
    apply IH. apply (Hstep s x s1 Hs Hf).
Qed.

Lemma mapM_raise {A C} (f : A -> res C) (l : list A) (e : exn) :
  mapM f l = Raise e -> exists x, f x = Raise e.
Proof.
  induction l as [|x l IH]; cbn [mapM]; [discriminate|].
  destruct (f x) as [y|e1] eqn:Hf; cbn [bind]; [|intros [= <-]; eauto].
  destruct (mapM f l) as [ys|e2]; cbn [bind]; [discriminate|].
  intros [= <-]. apply IH. reflexivity.
Qed.

(** ** More on [info], [isfile] and [isdir] *)

Lemma named_Forall (path : string) (out l : list entry) :
  named path out = Ok l -> Forall (fun o => stripped_name o = Ok path) l.
Proof.
  intros H. apply filterM_Forall in H.
  eapply Forall_impl; [exact H|]. intros o Ho. cbn beta in Ho.
  destruct (stripped_name o) as [n|e]; [|discriminate]. cbn [bind] in Ho.
  injection Ho as Ho. apply String.eqb_eq in Ho. congruence.
Qed.

Lemma stripped_name_directory_entry (path : string) :
  stripped_name (directory_entry path) = Ok (PyStr.rstrip "/" path).
Proof. reflexivity. Qed.

Lemma stripped_name_set_size (o : entry) (v : pyval) :
  stripped_name (<["size" := v]> o) = stripped_name o.
Proof.
  unfold stripped_name, getitem. rewrite lookup_insert_ne by discriminate.
  reflexivity.
Qed.

(** X7. Whatever [info(p)] returns is named after [p]: its ["name"],
    trailing slashes apart, is the protocol-stripped path, trailing
    slashes apart. This holds for an entry taken from the parent's
    listing, for one taken from the path's own listing and for the
    synthesized directory entry. *)
Theorem info_names_path
    (cls : fs_class) (ls : string -> res (list entry)) (p : string) (o : entry)
    (Hinfo : info cls ls p = Ok o) :
  exists n,
    stripped_name o = Ok n
    /\ PyStr.rstrip "/" n = PyStr.rstrip "/" (_strip_protocol cls p).
Proof.
  unfold info in Hinfo. set (q := _strip_protocol cls p) in *.
  destruct (ls (_parent cls q)) as [up|e]; [|discriminate]. cbn [bind] in Hinfo.
  destruct (named q up) as [l|e] eqn:Hup; [|discriminate]. cbn [bind] in Hinfo.
  apply named_Forall in Hup. destruct l as [|o1 l].
  - destruct (ls q) as [out|e]; [|discriminate]. cbn [bind] in Hinfo.
    destruct (named (PyStr.rstrip "/" q) out) as [out1|e] eqn:Hout;
      [|discriminate]. cbn [bind] in Hinfo.
    apply named_Forall in Hout.
    assert (Hdir : forall o',
               Ok (directory_entry (PyStr.rstrip "/" q)) = Ok o' ->
               exists n, stripped_name o' = Ok n
                         /\ PyStr.rstrip "/" n = PyStr.rstrip "/" q).
    { intros o' [= <-]. eexists. split; [apply stripped_name_directory_entry|].
      rewrite !rstrip_idempotent. reflexivity. }
    destruct out1 as [|o1 [|o2 out1]].
    + destruct (_ || _); [apply Hdir, Hinfo | discriminate].
    + apply Forall_cons in Hout as [Ho1 _].
      exists (PyStr.rstrip "/" q). split; [|apply rstrip_idempotent].
      destruct (o1 !! "size"); injection Hinfo as <-;
        [|rewrite stripped_name_set_size]; exact Ho1.
    + destruct (_ || _); [apply Hdir, Hinfo | discriminate].
  - injection Hinfo as <-. apply Forall_cons in Hup as [Ho1 _].
    exists q. split; [exact Ho1 | reflexivity].
Qed.

Lemma info_names_path_witness :
  exists n,
    stripped_name (directory_entry "") = Ok n
    /\ PyStr.rstrip "/" n = PyStr.rstrip "/" (_strip_protocol memfs "/").
Proof.
  apply (info_names_path memfs sample_ls "/" (directory_entry "")).
  vm_compute. reflexivity.
Defined.

(** X8. [isfile] never raises; a path is never both a file and a
    directory; and what [isfile] or [isdir] accepts, [exists] accepts
    too. *)
Theorem isfile_isdir_exclusive
    (cls : fs_class) (ls : string -> res (list entry)) (p : string) :
  (exists b, isfile cls ls p = Ok b)
  /\ (isfile cls ls p = Ok true ->
      isdir cls ls p = Ok false /\ exists_ cls ls p = Ok true)
  /\ (isdir cls ls p = Ok true ->
      isfile cls ls p = Ok false /\ exists_ cls ls p = Ok true).
Proof.
  unfold isfile, isdir, exists_, try_except, any_exception.
  destruct (info cls ls p) as [i|e]; cbn [bind].
  - unfold getitem. destruct (i !! "type") as [t|]; cbn [bind].
    + split; [eauto|]. split; intros [= Ht]; apply bool_decide_eq_true in Ht;
        subst t; split; reflexivity.
    + split; [eauto|]. split; discriminate.
  - split; [eauto|]. split; [discriminate|].
    destruct (is_OSError e); discriminate.
Qed.

(** An entry without ["type"]: [isfile] answers [False], [isdir] lets
    the [KeyError] through, its handler being for [IOError] only. *)
Example isdir_raises_on_untyped_entry :
  isfile AbstractFileSystem untyped_ls "a" = Ok false
  /\ isdir AbstractFileSystem untyped_ls "a" = Raise (KeyError "type")
  /\ exists_ AbstractFileSystem untyped_ls "a" = Ok true.
Proof. repeat split. Qed.

(** ** More on [walk] and [find] *)

Lemma stripped_name_raise (o : entry) (e : exn) :
  stripped_name o = Raise e -> is_OSError e = false.
Proof.
  unfold stripped_name, getitem. destruct (o !! "name") as [[]|]; cbn;
    intros [= <-]; reflexivity.
Qed.

Lemma walk_bucket_raise (path : string)
    (st : odict string entry * odict string entry * odict string entry)
    (o : entry) (e : exn) :
  walk_bucket path st o = Raise e -> is_OSError e = false.
Proof.
  destruct st as [[full_dirs dirs] files]. unfold walk_bucket.
  destruct (stripped_name o) as [pathname|e1] eqn:Hname; cbn [bind].
  - unfold getitem. destruct (o !! "type"); cbn [bind].
    + destruct (_ && _); [discriminate|]. destruct (String.eqb _ _); discriminate.
    + intros [= <-]. reflexivity.
  - intros [= <-]. apply (stripped_name_raise o), Hname.
Qed.

Lemma yield_from_each_raise {A Y R} (body : A -> gen Y R) (xs : list A)
    (e : exn) :
  ending (yield_from_each body xs) = GenRaise e ->
  exists x, ending (body x) = GenRaise e.
Proof.
  induction xs as [|x xs IH]; cbn [yield_from_each]; [discriminate|].
  destruct (ending (body x)) eqn:Hx; cbn [ending]; eauto.
Qed.

Lemma walk_raise (cls : fs_class) (ls : string -> res (list entry))
    (fuel : nat) (p : string) (maxdepth : option Z) (detail : bool) (e : exn) :
  ending (walk cls ls fuel p maxdepth detail) = GenRaise e ->
  is_OSError e = false.
Proof.
  revert p maxdepth. induction fuel as [|fuel IH]; intros p maxdepth;
    [discriminate|].
  cbn [walk]. destruct (ls (_strip_protocol cls p)) as [listing|e1].
  - destruct (foldM _ listing _) as [[[full_dirs dirs] files]|e1] eqn:Hfold.
    + unfold yield_then. cbn [ending].
      assert (Hsub : forall m,
                 ending (yield_from_each
                           (fun d => walk cls ls fuel d m detail)
                           (odict_keys full_dirs)) = GenRaise e ->
                 is_OSError e = false).
      { intros m [d Hd]%yield_from_each_raise. apply (IH _ _ Hd). }
      destruct maxdepth as [m|]; [|apply Hsub].
      destruct (m - 1 <? 1); [discriminate | apply Hsub].
    + intros [= <-]. apply foldM_raise in Hfold as (st & o & Hb).
      apply (walk_bucket_raise _ _ _ _ Hb).
  - destruct (is_FileNotFoundError e1 || is_OSError e1) eqn:Hcatch;
      [discriminate|].
    intros [= <-]. apply orb_false_iff in Hcatch as [_ H]. exact H.
Qed.

(** X9. No [OSError] leaves [walk]: a listing that fails with
    [FileNotFoundError], [PermissionError] or any other [IOError], at
    the root or further down, only ends that part of the walk. What
    [walk] does raise comes from a backend error of another kind or from
    an entry without a proper ["name"] or ["type"]. *)
Theorem walk_never_raises_oserror
    (cls : fs_class) (ls : string -> res (list entry)) (fuel : nat)
    (p : string) (maxdepth : option Z) (detail : bool) (e : exn)
    (Hraise : ending (walk cls ls fuel p maxdepth detail) = GenRaise e) :
  is_OSError e = false.
Proof. exact (walk_raise cls ls fuel p maxdepth detail e Hraise). Qed.

Lemma walk_never_raises_oserror_witness :
  is_OSError (NotImplementedError "ls") = false.
Proof.
  apply (walk_never_raises_oserror AbstractFileSystem base_ls 1 "a" None false).
  reflexivity.
Defined.

(** X10. [maxdepth] 1, 0 and below all mean the same to [walk]: the
    top level only. The walk then yields at most one item and makes no
    recursive call, whatever the tree. *)
Theorem walk_top_level_only
    (cls : fs_class) (ls : string -> res (list entry)) (fuel : nat)
    (p : string) (m : Z) (detail : bool)
    (Hm : m <= 1) :
  walk cls ls (S fuel) p (Some m) detail = walk cls ls 1 p (Some 1) detail
  /\ (length (yielded (walk cls ls (S fuel) p (Some m) detail)) <= 1)%nat
  /\ ending (walk cls ls (S fuel) p (Some m) detail) <> GenOutOfFuel.
Proof.
  cbn [walk]. rewrite (proj2 (Z.ltb_lt (m - 1) 1)) by lia.
  change (1 - 1 <? 1) with true. cbn iota.
  destruct (ls (_strip_protocol cls p)) as [listing|e].
  - destruct (foldM _ listing _) as [[[full_dirs dirs] files]|e].
    + repeat split; [simpl; lia | discriminate].
    + repeat split; [simpl; lia | discriminate].
  - destruct (_ || _); repeat split; simpl; try lia; discriminate.
Qed.

Lemma walk_top_level_only_witness :
  walk memfs sample_ls 5 "/a" (Some 0) false
  = walk memfs sample_ls 1 "/a" (Some 1) false
  /\ (length (yielded (walk memfs sample_ls 5 "/a" (Some 0%Z) false)) <= 1)%nat
  /\ ending (walk memfs sample_ls 5 "/a" (Some 0) false) <> GenOutOfFuel.
Proof. apply (walk_top_level_only memfs sample_ls 4 "/a" 0 false). lia. Defined.

(** ** Ordered dicts *)

Lemma odict_set_keys {K V : Type} `{EqDecision K} (k : K) (v : V)
    (d : odict K V) :
  odict_keys (odict_set k v d)
  = if decide (k ∈ odict_keys d) then odict_keys d
    else (odict_keys d ++ [k])%list.
Proof.
  unfold odict_keys. induction d as [|[k' v'] d IH].
  - cbn [odict_set map fst].
    destruct (decide (k ∈ [])) as [[]%elem_of_nil|]; reflexivity.
  - cbn [odict_set map fst].
    destruct (decide (k = k')) as [->|Hne]; cbn [map fst].
    + destruct (decide (k' ∈ k' :: map fst d)) as [|Hout]; [reflexivity|].
      exfalso. apply Hout, elem_of_cons. left. reflexivity.
    + rewrite IH. destruct (decide (k ∈ map fst d)) as [Hin|Hout];
        destruct (decide (k ∈ k' :: map fst d)) as [Hin'|Hout'];
        try reflexivity.
      * exfalso. apply Hout', elem_of_cons. right. exact Hin.
      * exfalso. apply elem_of_cons in Hin' as [?|?]; contradiction.
Qed.

(** The keys of a dict stay distinct under assignment and [update]. *)
Lemma odict_set_NoDup {K V : Type} `{EqDecision K} (k : K) (v : V)
    (d : odict K V) :
  NoDup (odict_keys d) -> NoDup (odict_keys (odict_set k v d)).
Proof.
  intros Hd. rewrite odict_set_keys.
  destruct (decide (k ∈ odict_keys d)) as [|Hout]; [exact Hd|].
  apply NoDup_app. split; [exact Hd|]. split.
  - intros x Hx [->|[]%elem_of_nil]%elem_of_cons. contradiction.
  - apply NoDup_singleton.
Qed.

Lemma odict_update_NoDup {K V : Type} `{EqDecision K} (d d2 : odict K V) :
  NoDup (odict_keys d) -> NoDup (odict_keys (odict_update d d2)).
Proof.
  unfold odict_update. revert d.
  induction d2 as [|[k v] d2 IH]; intros d Hd; [exact Hd|].
  simpl. apply IH, odict_set_NoDup, Hd.
Qed.

Lemma StronglySorted_sublist {A} (R : relation A) (l1 l2 : list A) :
  l1 `sublist_of` l2 -> StronglySorted R l2 -> StronglySorted R l1.
Proof.
  induction 1 as [|x l1 l2 Hsub IH|x l1 l2 Hsub IH]; intros Hs.
  - constructor.
  - apply StronglySorted_inv in Hs as [Hs Hall]. constructor; [auto|].
    apply Forall_forall. intros y Hy. rewrite Forall_forall in Hall.
    apply Hall. apply (elem_of_sublist _ _ _ Hy Hsub).
  - apply StronglySorted_inv in Hs as [Hs _]. auto.
Qed.

(** Picking keys of a dict along a list of names keeps the order of the
    names. *)
Lemma picked_keys_sublist {V : Type} (get : string -> option V)
    (names : list string) :
  odict_keys (omap (fun n => pair n <$> get n) names) `sublist_of` names.
Proof.
  unfold odict_keys. induction names as [|n names IH]; [constructor|].
  simpl. destruct (get n); simpl.
  - apply sublist_skip, IH.
  - apply sublist_cons, IH.
Qed.

(** ** What [find] returns *)

Lemma find_collect_NoDup (withdirs : bool) (out out' : odict string entry)
    (item : walk_item) :
  NoDup (odict_keys out) -> find_collect withdirs out item = Ok out' ->
  NoDup (odict_keys out').
Proof.
  intros Hout. destruct item as [path dirs files|]; cbn [find_collect];
    [|discriminate].
  destruct (mapM _ _) as [kvs|e]; cbn [bind]; [|discriminate].
  intros [= <-]. apply odict_update_NoDup, Hout.
Qed.

Lemma find_collect_raise (withdirs : bool) (out : odict string entry)
    (item : walk_item) (e : exn) :
  find_collect withdirs out item = Raise e -> is_OSError e = false.
Proof.
  destruct item as [path dirs files|]; cbn [find_collect];
    [|intros [= <-]; reflexivity].
  destruct (mapM _ _) as [kvs|e1] eqn:Hmap; cbn [bind]; [discriminate|].
  intros [= <-]. apply mapM_raise in Hmap as [[k i] Hk]. cbn [snd] in Hk.
  unfold name_key, getitem in Hk.
  destruct (i !! "name") as [[]|]; cbn in Hk; try discriminate;
    injection Hk as <-; reflexivity.
Qed.

Lemma isfile_total (cls : fs_class) (ls : string -> res (list entry))
    (p : string) :
  exists b, isfile cls ls p = Ok b.
Proof.
  unfold isfile, try_except, any_exception.
  destruct (let* i := info cls ls p in _); eauto.
Qed.

Lemma find_sorted_names
    (cls : fs_class) (ls : string -> res (list entry)) (fuel : nat)
    (p : string) (maxdepth : option Z) (withdirs detail : bool)
    (out : listing_out) :
  find cls ls fuel p maxdepth withdirs detail = Some (Ok out) ->
  StronglySorted String.le (names_of out) /\ NoDup (names_of out).
Proof.
  intros Hfind. unfold find, fbind, lift in Hfind.
  destruct (foldM _ _ _) as [collected|e] eqn:Hfold; [|discriminate].
  destruct (ending _); try discriminate.
  destruct (match collected with [] => _ | _ => _ end) as [isf|e];
    [|discriminate].
  assert (Hkeys : NoDup (odict_keys collected)).
  { refine (foldM_invariant (fun o => NoDup (odict_keys o)) _ _ _ _
              _ _ Hfold); [|apply NoDup_nil_2].
    intros s x s' Hs Hf. apply (find_collect_NoDup withdirs s s' x Hs Hf). }
  set (final := if isf then odict_set _ _ collected else collected) in Hfind.
  assert (Hfinal : NoDup (odict_keys final))
    by (subst final; destruct isf; [apply odict_set_NoDup|]; exact Hkeys).
  pose proof (sorted_strongly_sorted (odict_keys final)) as Hsorted.
  pose proof (sorted_NoDup _ Hfinal) as Hnodup.
  destruct detail; injection Hfind as <-; cbn [names_of].
  - split.
    + eapply StronglySorted_sublist; [apply picked_keys_sublist | exact Hsorted].
    + eapply sublist_NoDup; [exact Hnodup | apply picked_keys_sublist].
  - split; assumption.
Qed.

(** X11. Whatever [find] returns, as names or as a dict, is in
    ascending order of code points and holds no name twice. *)
Theorem find_sorted
    (cls : fs_class) (ls : string -> res (list entry)) (fuel : nat)
    (p : string) (maxdepth : option Z) (withdirs detail : bool)
    (out : listing_out)
    (Hfind : find cls ls fuel p maxdepth withdirs detail = Some (Ok out)) :
  StronglySorted String.le (names_of out) /\ NoDup (names_of out).
Proof. exact (find_sorted_names _ _ _ _ _ _ _ _ Hfind). Qed.

Lemma find_sorted_witness :
  StronglySorted String.le
    (names_of (Names ["/a/b/c.txt"; "/a/b/d.txt"; "/a/e.txt"]))
  /\ NoDup (names_of (Names ["/a/b/c.txt"; "/a/b/d.txt"; "/a/e.txt"])).
Proof.
  apply (find_sorted memfs sample_ls 5 "/a" None false false).
  vm_compute. reflexivity.
Defined.

(** X12. [find] raises no [OSError] either. When the listing of the
    path itself fails with one, [find] returns the path alone if
    [isfile] accepts it and nothing otherwise: a missing path gives an
    empty result, not an error. *)
Theorem find_swallows_oserror
    (cls : fs_class) (ls : string -> res (list entry)) (fuel : nat)
    (p : string) (maxdepth : option Z) (withdirs : bool) :
  (forall detail e,
     find cls ls fuel p maxdepth withdirs detail = Some (Raise e) ->
     is_OSError e = false)
  /\ (forall e,
        ls (_strip_protocol cls (_strip_protocol cls p)) = Raise e ->
        is_OSError e = true ->
        find cls ls (S fuel) p maxdepth withdirs false
        = Some (Ok (Names
             (if bool_decide (isfile cls ls (_strip_protocol cls p) = Ok true)
              then [_strip_protocol cls p] else [])))).
Proof.
  split.
  - intros detail e. unfold find, fbind, lift.
    destruct (foldM _ _ _) as [collected|e1] eqn:Hfold.
    + destruct (ending _) eqn:Hend; try discriminate.
      * destruct (isfile_total cls ls (_strip_protocol cls p)) as [b Hb].
        rewrite Hb. destruct collected, detail; discriminate.
      * intros [= <-]. apply (walk_raise _ _ _ _ _ _ _ Hend).
    + intros [= <-]. apply foldM_raise in Hfold as (s & x & Hx).
      apply (find_collect_raise _ _ _ _ Hx).
  - intros e Hls He. unfold find. cbn [walk]. rewrite Hls, He, orb_true_r.
    cbn [gen_return yielded ending foldM lift fbind].
    destruct (isfile_total cls ls (_strip_protocol cls p)) as [b ->].
    destruct b; reflexivity.
Qed.

Example find_examples :
  find memfs sample_ls 3 "/missing" None false false = Some (Ok (Names []))
  /\ find memfs sample_ls 3 "/a/e.txt" None false false
     = Some (Ok (Names ["/a/e.txt"]))
  /\ find memfs denied_ls 3 "/a" None true false = Some (Ok (Names []))
  /\ find memfs sample_ls 3 "/a" (Some 1) true false
     = Some (Ok (Names ["/a/b"; "/a/e.txt"]))
  /\ find memfs sample_ls 3 "/a" (Some 0) false false
     = Some (Ok (Names ["/a/e.txt"])).
Proof. repeat split; vm_compute; reflexivity. Qed.

(** X13. What [glob] returns is likewise sorted and free of
    duplicates, for a literal pattern as for one with metacharacters. *)
Theorem glob_sorted
    (cls : fs_class) (ls : string -> res (list entry))
    (re_compile : string -> res (string -> bool)) (fuel : nat) (p : string)
    (detail : bool) (out : listing_out)
    (Hglob : glob cls ls re_compile fuel p detail = Some (Ok out)) :
  StronglySorted String.le (names_of out) /\ NoDup (names_of out).
Proof.
  assert (Hsearch : forall path root depth,
             glob_search cls ls re_compile fuel path root depth detail
             = Some (Ok out) ->
             StronglySorted String.le (names_of out) /\ NoDup (names_of out)).
  { intros path root depth. unfold glob_search, fbind, lift.
    destruct (find cls ls fuel root depth true true) as [[found|e]|] eqn:Hfind;
      try discriminate.
    apply find_sorted_names in Hfind as [Hsorted Hnodup].
    destruct (re_compile _) as [matches|e]; [|discriminate].
    set (all := match found with Detail d => d | Names _ => [] end).
    assert (Hall : NoDup (odict_keys all))
      by (subst all; destruct found; [constructor | exact Hnodup]).
    set (picked := omap _ _).
    assert (Hsub : odict_keys picked `sublist_of` sorted (odict_keys all)).
    { subst picked. generalize (sorted (odict_keys all)). intros names.
      unfold odict_keys. induction names as [|n names IH]; [constructor|].
      simpl. destruct (matches _).
      - destruct (odict_get n all); simpl.
        + apply sublist_skip, IH.
        + apply sublist_cons, IH.
      - apply sublist_cons, IH. }
    assert (StronglySorted String.le (odict_keys picked)
            /\ NoDup (odict_keys picked)) as [? ?].
    { split.
      - eapply StronglySorted_sublist; [exact Hsub|].
        apply sorted_strongly_sorted.
      - eapply sublist_NoDup; [|exact Hsub]. apply sorted_NoDup, Hall. }
    destruct detail; intros [= <-]; cbn [names_of]; split; assumption. }
  unfold glob in Hglob.
  destruct (negb (PyStr.has_magic (_strip_protocol cls p))).
  - destruct (PyStr.endswith p "/"); [apply (Hsearch _ _ _ Hglob)|].
    unfold fbind, lift in Hglob.
    destruct (exists_ cls ls (_strip_protocol cls p)) as [[]|e];
      try discriminate.
    + destruct detail.
      * destruct (info cls ls _) as [i|e]; [|discriminate].
        injection Hglob as <-. cbn. split;
          [repeat constructor | apply NoDup_singleton].
      * injection Hglob as <-. cbn. split;
          [repeat constructor | apply NoDup_singleton].
    + destruct detail; injection Hglob as <-; cbn; split; constructor.
  - destruct (PyStr.contains _ "/"); apply (Hsearch _ _ _ Hglob).
Qed.

Lemma glob_sorted_witness :
  StronglySorted String.le (names_of (Names ["/a/b"; "/a/e.txt"]))
  /\ NoDup (names_of (Names ["/a/b"; "/a/e.txt"])).
Proof.
  apply (glob_sorted memfs sample_ls any_re 5 "/a/*" false).
  vm_compute. reflexivity.
Defined.

(** ** Literal paths in [expand_path] and [rm] *)

Section literal_paths.
Context (cls : fs_class).
Context (ls : string -> res (list entry)).
Context (re_compile : string -> res (string -> bool)).

(** Without [recursive], the loop of [expand_path] adds each literal
    path as it is. *)
Lemma expand_literal_loop (body : gset string -> string -> fueled (gset string))
    (paths : list string) (out : gset string) :
  (forall out p, p ∈ paths -> body out p = Some (Ok (out ∪ {[p]}))) ->
  ffold body paths out = Some (Ok (out ∪ list_to_set paths)).
Proof.
  revert out. induction paths as [|p paths IH]; intros out Hbody.
  - cbn [ffold]. f_equal. f_equal. rewrite list_to_set_nil.
    symmetry. apply (right_id_L ∅ (∪)).
  - cbn [ffold]. rewrite Hbody by (apply elem_of_cons; left; reflexivity).
    cbn [fbind]. rewrite IH.
    + f_equal. f_equal. rewrite list_to_set_cons. symmetry. apply (assoc_L (∪)).
    + intros out' p' Hp'. apply Hbody, elem_of_cons. right. exact Hp'.
Qed.

(** X14. Without [recursive], [expand_path] on literal paths (none has a
    metacharacter once stripped) never consults the filesystem: it
    returns the stripped paths, sorted and without duplicates, whether
    they exist or not; only the empty list raises
    [FileNotFoundError]. *)
Theorem expand_path_literal (fuel : nat) (paths : list string)
    (maxdepth : option Z)
    (Hliteral :
       Forall (fun p => PyStr.has_magic (_strip_protocol cls p) = false) paths) :
  expand_path cls ls re_compile (S fuel) (PathList paths) false maxdepth
  = match paths with
    | [] => Some (Raise (FileNotFoundError ""))
    | _ =>
        Some (Ok (sorted (elements
                    (list_to_set (map (_strip_protocol cls) paths)
                     : gset string))))
    end.
Proof.
  cbn [expand_path expand_paths].
  rewrite expand_literal_loop with (out := ∅).
  - cbn [fbind].
    rewrite (left_id_L ∅ (∪)).
    destruct paths as [|p paths]; [reflexivity|].
    rewrite bool_decide_eq_false_2; [reflexivity|].
    cbn [map]. rewrite list_to_set_cons. intros Hempty.
    apply (not_elem_of_empty (C := gset string) (_strip_protocol cls p)).
    rewrite <- Hempty. apply elem_of_union_l, elem_of_singleton. reflexivity.
  - intros out q Hq. apply list_elem_of_fmap in Hq as (p & -> & Hp).
    rewrite Forall_forall in Hliteral. rewrite (Hliteral p Hp).
    cbn [fbind lift]. destruct (bool_decide _) eqn:Hin.
    + reflexivity.
    + apply bool_decide_eq_false, dec_stable in Hin. f_equal. f_equal.
      apply set_eq. intros x. rewrite elem_of_union, elem_of_singleton.
      split; [auto | intros [?| ->]; assumption].
Qed.

Lemma sorted_single (x : string) : sorted [x] = [x].
Proof. reflexivity. Qed.

Lemma expand_path_one_literal (fuel : nat) (p : string) (maxdepth : option Z) :
  PyStr.has_magic (_strip_protocol cls p) = false ->
  expand_path cls ls re_compile (S fuel) (OnePath p) false maxdepth
  = Some (Ok [_strip_protocol cls p]).
Proof.
  intros Hliteral. cbn [expand_path expand_paths].
  rewrite expand_literal_loop with (out := ∅).
  - cbn [fbind map].
    rewrite (left_id_L ∅ (∪)), list_to_set_cons, list_to_set_nil.
    rewrite (right_id_L ∅ (∪)).
    rewrite bool_decide_eq_false_2.
    + rewrite elements_singleton, !sorted_single. reflexivity.
    + intros Hempty.
      apply (not_elem_of_empty (C := gset string) (_strip_protocol cls p)).
      rewrite <- Hempty. apply elem_of_singleton. reflexivity.
  - intros out q Hq. apply list_elem_of_fmap in Hq as (p' & -> & Hp).
    apply list_elem_of_singleton in Hp as ->. rewrite Hliteral.
    cbn [fbind lift]. destruct (bool_decide _) eqn:Hin.
    + reflexivity.
    + apply bool_decide_eq_false, dec_stable in Hin. f_equal. f_equal.
      apply set_eq. intros x. rewrite elem_of_union, elem_of_singleton.
      split; [auto | intros [?| ->]; assumption].
Qed.

End literal_paths.

Lemma expand_path_literal_witness :
  expand_path memfs sample_ls any_re 1 (PathList ["/zz/"; "/a"; "/zz"]) false None
  = Some (Ok (sorted (elements
                (list_to_set (map (_strip_protocol memfs) ["/zz/"; "/a"; "/zz"])
                 : gset string)))).
Proof.
  apply (expand_path_literal memfs sample_ls any_re 0 ["/zz/"; "/a"; "/zz"] None).
  repeat constructor.
Defined.

(** The two spellings of the missing [/zz] come out once, after [/a]. *)
Example expand_path_literal_value :
  expand_path memfs sample_ls any_re 1 (PathList ["/zz/"; "/a"; "/zz"]) false None
  = Some (Ok ["/a"; "/zz"]).
Proof. vm_compute. reflexivity. Qed.

(** X15. [rm] of one literal path without [recursive] makes exactly one
    call of [rm_file], on the stripped path, and gives back what that
    call gives; it does not look whether the path exists. *)
Theorem rm_one_literal (cls : fs_class) {store : Type}
    (ls_of : store -> string -> res (list entry))
    (rm_file : string -> store -> res store)
    (re_compile : string -> res (string -> bool))
    (fuel : nat) (p : string) (maxdepth : option Z) (s : store)
    (Hliteral : PyStr.has_magic (_strip_protocol cls p) = false) :
  rm cls ls_of rm_file re_compile (S fuel) (OnePath p) false maxdepth s
  = Some ([_strip_protocol cls p], rm_file (_strip_protocol cls p) s).
Proof.
  unfold rm. rewrite expand_path_one_literal by assumption.
  cbn [rev app rm_each]. destruct (rm_file _ s); reflexivity.
Qed.

Lemma rm_one_literal_witness :
  rm memfs (fun _ : unit => sample_ls)
     (fun p _ => Raise (FileNotFoundError p)) any_re 1 (OnePath "/zz/") false
     None tt
  = Some (["/zz"], Raise (FileNotFoundError "/zz")).
Proof.
  apply (rm_one_literal memfs (fun _ : unit => sample_ls)
           (fun p _ => Raise (FileNotFoundError p)) any_re 0 "/zz/" None tt).
  reflexivity.
Defined.

(** ** Reading by position *)

Lemma take_empty (n : nat) : PyStr.take n "" = "".
Proof. destruct n; reflexivity. Qed.

Lemma take_drop_clip (s : string) (a b : Z) :
  0 <= a -> a <= b ->
  PyStr.take (Z.to_nat (Z.min b (PyStr.len s) - Z.min a (PyStr.len s)))
    (PyStr.drop (Z.to_nat (Z.min a (PyStr.len s))) s)
  = PyStr.take (Z.to_nat (b - a)) (PyStr.drop (Z.to_nat a) s).
Proof.
  intros Ha Hab. unfold PyStr.len.
  destruct (Z_lt_le_dec a (Z.of_nat (String.length s))) as [Hlt|Hge].
  - rewrite (Z.min_l a) by lia.
    destruct (Z_le_gt_dec b (Z.of_nat (String.length s))) as [Hb|Hb].
    + rewrite (Z.min_l b) by lia. reflexivity.
    + rewrite (Z.min_r b) by lia.
      rewrite !take_all; [reflexivity | |]; rewrite length_drop; lia.
  - rewrite !(drop_all _ s) by lia. rewrite !take_empty. reflexivity.
Qed.

(** A slice whose bounds, read as Python reads them, are in order. *)
Lemma slice_in_order (s : string) (lo hi : option Z) :
  let n := PyStr.len s in
  let a := match lo with
           | None => 0
           | Some i => if 0 <=? i then i else Z.max 0 (n + i)
           end in
  let b := match hi with
           | None => n
           | Some e => if e <? 0 then n + e else e
           end in
  a <= b ->
  PyStr.slice s lo hi = PyStr.take (Z.to_nat (b - a)) (PyStr.drop (Z.to_nat a) s).
Proof.
  intros n a b Hab. pose proof (len_nonneg s) as Hn. fold n in Hn.
  assert (Ha : 0 <= a).
  { subst a. destruct lo as [i|]; [|lia].
    destruct (Z.leb_spec 0 i); lia. }
  rewrite <- (take_drop_clip s a b Ha Hab). unfold PyStr.slice. fold n.
  assert (Hlo : match lo with Some i => PyStr.clip n i | None => 0 end
                = Z.min a n).
  { subst a. unfold PyStr.clip. destruct lo as [i|]; [|lia].
    destruct (Z.leb_spec 0 i), (Z.ltb_spec i 0); lia. }
  assert (Hhi : match hi with Some i => PyStr.clip n i | None => n end
                = Z.min b n).
  { subst b. unfold PyStr.clip. destruct hi as [e|]; [|lia].
    destruct (Z.ltb_spec e 0); lia. }
  rewrite Hlo, Hhi. reflexivity.
Qed.

(** From a position on. *)
Lemma slice_from (s : string) (lo : option Z) :
  PyStr.slice s lo None
  = PyStr.drop
      (Z.to_nat match lo with
                | None => 0
                | Some i => if 0 <=? i then i else Z.max 0 (PyStr.len s + i)
                end) s.
Proof.
  pose proof (len_nonneg s) as Hn.
  assert (Hpast : forall i, PyStr.len s < i ->
                    PyStr.slice s (Some i) None = PyStr.drop (Z.to_nat i) s).
  { intros i Hi. unfold PyStr.slice, PyStr.clip.
    rewrite (proj2 (Z.ltb_ge i 0)) by lia. rewrite Z.min_r by lia.
    rewrite Z.sub_diag. cbn [Z.to_nat PyStr.take].
    rewrite (drop_all (Z.to_nat i)) by (unfold PyStr.len in Hi; lia).
    destruct (PyStr.drop _ s); reflexivity. }
  destruct lo as [i|].
  - destruct (Z.leb_spec 0 i) as [Hi|Hi].
    + destruct (Z_le_gt_dec i (PyStr.len s)) as [Hin|Hout];
        [|apply Hpast; lia].
      rewrite slice_in_order; cbv zeta; rewrite ?(proj2 (Z.leb_le 0 i) Hi);
        [|exact Hin].
      apply take_all. rewrite length_drop. unfold PyStr.len in *. lia.
    + rewrite slice_in_order; cbv zeta; rewrite ?(proj2 (Z.leb_gt 0 i) Hi);
        [|lia].
      apply take_all. rewrite length_drop. unfold PyStr.len in *. lia.
  - rewrite slice_in_order; cbv zeta; [|lia].
    apply take_all. rewrite length_drop. unfold PyStr.len in *. lia.
Qed.

Section read_facts.
Context {B : Type}.
Implicit Types f : file B.

Lemma length_remaining f :
  0 <= loc f ->
  PyStr.len (remaining f)
  = Z.max 0 (Z.min (size f) (PyStr.len (content f)) - loc f).
Proof.
  intros Hloc. unfold remaining, PyStr.len.
  rewrite length_drop, length_take. lia.
Qed.

Lemma remaining_whole f :
  size f = PyStr.len (content f) ->
  remaining f = PyStr.drop (Z.to_nat (loc f)) (content f).
Proof.
  intros Hsize. unfold remaining. rewrite take_all; [reflexivity|].
  rewrite Hsize. unfold PyStr.len. lia.
Qed.

(** What [read] returns in read mode on an open file. *)
Lemma read_value (n : Z) f :
  mode f = "rb" -> closed f = false -> 0 <= loc f ->
  read (Some n) f
  = let r := if n <? 0 then remaining f
             else PyStr.take (Z.to_nat n) (remaining f) in
    (set_loc (loc f + PyStr.len r) f, Ok r).
Proof.
  intros Hmode Hopen Hloc. pose proof (length_remaining f Hloc) as Hlen.
  unfold read. rewrite Hmode, Hopen. cbn [String.eqb Ascii.eqb negb].
  change (String.eqb "rb" "rb") with true. cbn [negb].
  cbv zeta. destruct (Z.ltb_spec n 0) as [Hneg|Hpos].
  - destruct (Z.eqb_spec (size f - loc f) 0) as [Heq|Hne].
    + assert (Hnil : remaining f = "").
      { apply len_zero. rewrite Hlen. lia. }
      rewrite Hnil. change (PyStr.len "") with 0.
      rewrite Z.add_0_r, set_loc_same. reflexivity.
    + rewrite (cache_fetch_remaining f _ Hloc).
      rewrite take_all; [reflexivity|]. unfold PyStr.len in Hlen. lia.
  - destruct (Z.eqb_spec n 0) as [->|Hne].
    + cbn [Z.to_nat PyStr.take]. rewrite take_empty || idtac.
      change (PyStr.take 0 (remaining f)) with "".
      change (PyStr.len "") with 0.
      rewrite Z.add_0_r, set_loc_same. reflexivity.
    + rewrite (cache_fetch_remaining f _ Hloc).
      replace (loc f + n - loc f) with n by lia. reflexivity.
Qed.

Lemma remaining_after (k : nat) f :
  0 <= loc f ->
  remaining (set_loc (loc f + PyStr.len (PyStr.take k (remaining f))) f)
  = PyStr.drop k (remaining f).
Proof.
  intros Hloc. unfold remaining at 1. cbn [loc size content set_loc].
  unfold PyStr.len. rewrite Z2Nat.inj_add by lia. rewrite Nat2Z.id.
  rewrite <- drop_drop. fold (remaining f). apply drop_length_take.
Qed.

(** X16. In read mode [read(n)] with [n >= 0] returns the next [n]
    bytes or, when fewer remain, all of them; it advances the position
    by what it returns; and it returns fewer than [n] bytes only when
    nothing is left afterwards. *)
Theorem read_at_most (n : Z) f
    (Hmode : mode f = "rb") (Hopen : closed f = false)
    (Hloc : 0 <= loc f) (Hn : 0 <= n) :
  exists r,
    read (Some n) f = (set_loc (loc f + PyStr.len r) f, Ok r)
    /\ r = PyStr.take (Z.to_nat n) (remaining f)
    /\ PyStr.len r = Z.min n (PyStr.len (remaining f))
    /\ remaining f = r ++ remaining (set_loc (loc f + PyStr.len r) f)
    /\ (PyStr.len r < n -> remaining (set_loc (loc f + PyStr.len r) f) = "").
Proof.
  exists (PyStr.take (Z.to_nat n) (remaining f)).
  assert (Hlen : PyStr.len (PyStr.take (Z.to_nat n) (remaining f))
                 = Z.min n (PyStr.len (remaining f))).
  { unfold PyStr.len. rewrite length_take. lia. }
  split; [|split; [reflexivity|split; [exact Hlen|]]].
  - rewrite (read_value n f Hmode Hopen Hloc).
    rewrite (proj2 (Z.ltb_ge n 0)) by lia. reflexivity.
  - rewrite (remaining_after _ f Hloc). split.
    + symmetry. apply take_drop.
    + intros Hshort. apply drop_all. rewrite Hlen in Hshort.
      unfold PyStr.len in Hshort. lia.
Qed.

(** X17. [read()] (as [read(None)] and [read(n)] for negative [n])
    returns all the bytes that remain, and every [read] after it returns
    [b""] and leaves the file as it is. *)
Theorem read_to_end f
    (Hmode : mode f = "rb") (Hopen : closed f = false) (Hloc : 0 <= loc f) :
  let f1 := set_loc (loc f + PyStr.len (remaining f)) f in
  read None f = (f1, Ok (remaining f))
  /\ (forall n, n < 0 -> read (Some n) f = (f1, Ok (remaining f)))
  /\ (forall m, read m f1 = (f1, Ok "")).
Proof.
  intros f1.
  assert (Hall : forall n, n < 0 -> read (Some n) f = (f1, Ok (remaining f))).
  { intros n Hneg. rewrite (read_value n f Hmode Hopen Hloc).
    rewrite (proj2 (Z.ltb_lt n 0) Hneg). reflexivity. }
  split; [exact (Hall (-1) eq_refl)|]. split; [exact Hall|].
  assert (Hloc1 : 0 <= loc f1).
  { subst f1. cbn [loc set_loc]. pose proof (len_nonneg (remaining f)). lia. }
  assert (Hnil : remaining f1 = "").
  { apply len_zero. rewrite (length_remaining f1 Hloc1).
    pose proof (length_remaining f Hloc) as Hlen.
    subst f1. cbn [loc size content set_loc]. lia. }
  assert (Hread : forall n, read (Some n) f1 = (f1, Ok "")).
  { intros n. rewrite (read_value n f1 Hmode Hopen Hloc1). rewrite Hnil.
    rewrite take_empty. destruct (n <? 0); cbv zeta;
      change (PyStr.len "") with 0; rewrite Z.add_0_r, set_loc_same;
      reflexivity. }
  intros [n|]; [apply Hread | exact (Hread (-1))].
Qed.

(** X18. Random access: on a file whose size is that of its content,
    [seek(k)] followed by [read(n)] returns [content[k:k+n]], which is
    empty when [k] lies at or past the end, and leaves the position at
    [k] plus the number of bytes returned. *)
Theorem seek_then_read (k n : Z) f
    (Hmode : mode f = "rb") (Hopen : closed f = false)
    (Hsize : size f = PyStr.len (content f))
    (Hk : 0 <= k) (Hn : 0 <= n) :
  let r := PyStr.slice (content f) (Some k) (Some (k + n)) in
  seek k 0 f = (set_loc k f, Ok k)
  /\ read (Some n) (set_loc k f) = (set_loc (k + PyStr.len r) f, Ok r)
  /\ (size f <= k -> r = "").
Proof.
  intros r.
  assert (Hr : r = PyStr.take (Z.to_nat n) (PyStr.drop (Z.to_nat k) (content f))).
  { subst r. rewrite slice_from_to by lia. f_equal. lia. }
  split; [|split].
  - unfold seek. rewrite Hmode. change (String.eqb "rb" "rb") with true.
    cbn [negb Z.eqb]. rewrite (proj2 (Z.ltb_ge k 0)) by lia. reflexivity.
  - rewrite (read_value n (set_loc k f) Hmode Hopen Hk).
    rewrite (proj2 (Z.ltb_ge n 0)) by lia.
    rewrite (remaining_whole (set_loc k f) Hsize). cbn [loc content set_loc].
    rewrite <- Hr. reflexivity.
  - intros Hpast. rewrite Hr, drop_all; [apply take_empty|].
    rewrite Hsize in Hpast. unfold PyStr.len in Hpast. lia.
Qed.

End read_facts.

Lemma read_at_most_witness :
  exists r,
    read (Some 4) (set_loc 4 sample_reader)
    = (set_loc (loc (set_loc 4 sample_reader) + PyStr.len r)
         (set_loc 4 sample_reader), Ok r)
    /\ r = PyStr.take (Z.to_nat 4) (remaining (set_loc 4 sample_reader))
    /\ PyStr.len r = Z.min 4 (PyStr.len (remaining (set_loc 4 sample_reader)))
    /\ remaining (set_loc 4 sample_reader)
       = r ++ remaining (set_loc (loc (set_loc 4 sample_reader) + PyStr.len r)
                           (set_loc 4 sample_reader))
    /\ (PyStr.len r < 4 ->
        remaining (set_loc (loc (set_loc 4 sample_reader) + PyStr.len r)
                     (set_loc 4 sample_reader)) = "").
Proof.
  apply (read_at_most 4 (set_loc 4 sample_reader));
    [reflexivity | reflexivity | simpl; lia | lia].
Defined.

Lemma read_to_end_witness :
  read None (set_loc 2 sample_reader)
  = (set_loc (2 + 4) (set_loc 2 sample_reader), Ok "XYcd")
  /\ (forall n, n < 0 ->
      read (Some n) (set_loc 2 sample_reader)
      = (set_loc (2 + 4) (set_loc 2 sample_reader), Ok "XYcd"))
  /\ (forall m,
      read m (set_loc (2 + 4) (set_loc 2 sample_reader))
      = (set_loc (2 + 4) (set_loc 2 sample_reader), Ok "")).
Proof.
  apply (read_to_end (set_loc 2 sample_reader));
    [reflexivity | reflexivity | simpl; lia].
Defined.

Lemma seek_then_read_witness :
  seek 3 0 sample_reader = (set_loc 3 sample_reader, Ok 3)
  /\ read (Some 2) (set_loc 3 sample_reader)
     = (set_loc (3 + PyStr.len "Yc") sample_reader, Ok "Yc")
  /\ (size sample_reader <= 3 -> "Yc" = "").
Proof.
  apply (seek_then_read 3 2 sample_reader);
    [reflexivity | reflexivity | reflexivity | lia | lia].
Defined.

(** ** Whole-file reads *)

Section file_access_facts.
Context {B token : Type}.
Context (cls : fs_class).
Context (_initiate_upload : file B -> res B).
Context (_upload_chunk : bool -> file B -> res (bool * B)).
Context (open_ : string -> string -> res (file B)).

(** Leaving the [with] block of a reader only closes it. *)
Lemma with_file_reader {A} (f : file B) (h : option (handle token))
    (body : file B -> file B * res A) :
  mode (fst (body f)) = "rb" -> closed (fst (body f)) = false ->
  with_file cls _initiate_upload _upload_chunk f h body = (h, snd (body f)).
Proof.
  intros Hmode Hopen. unfold with_file. destruct (body f) as [f1 r].
  cbn [fst snd] in *. unfold close. rewrite Hopen, Hmode.
  change (String.eqb "rb" "rb") with true. cbv iota. reflexivity.
Qed.

Lemma seek_reader (k : Z) (f : file B) :
  mode f = "rb" -> 0 <= k -> seek k 0 f = (set_loc k f, Ok k).
Proof.
  intros Hmode Hk. unfold seek. rewrite Hmode.
  change (String.eqb "rb" "rb") with true.
  cbn [negb Z.eqb]. rewrite (proj2 (Z.ltb_ge k 0)) by lia. reflexivity.
Qed.

Lemma seek_end_reader (k : Z) (f : file B) :
  mode f = "rb" -> 0 <= size f + k ->
  seek k 2 f = (set_loc (size f + k) f, Ok (size f + k)).
Proof.
  intros Hmode Hk. unfold seek. rewrite Hmode.
  change (String.eqb "rb" "rb") with true.
  cbn [negb Z.eqb Pos.eqb]. rewrite (proj2 (Z.ltb_ge (size f + k) 0)) by lia.
  reflexivity.
Qed.

(** [cat_file] up to its [read]: the file is at the start position. *)
Lemma cat_file_reads (path : string) (start end_ : option Z)
    (h : option (handle token)) (f : file B) :
  open_ path "rb" = Ok f -> opened_for_reading f ->
  let a := match start with
           | None => 0
           | Some s => if 0 <=? s then s else Z.max 0 (size f + s)
           end in
  0 <= a
  /\ cat_file cls _initiate_upload _upload_chunk open_ path start end_ h
     = (h, snd (read match end_ with
                     | Some e => Some ((if e <? 0 then size f + e else e) - a)
                     | None => None
                     end (set_loc a f))).
Proof.
  intros Hopen (Hmode & Hclosed & Hloc & Hsize) a.
  assert (Ha : 0 <= a).
  { subst a. destruct start as [s|]; [destruct (Z.leb_spec 0 s)|]; lia. }
  split; [exact Ha|].
  unfold cat_file. rewrite Hopen.
  assert (Hseek :
    match start with
    | None => (f, Ok 0)
    | Some s => if 0 <=? s then seek s 0 f
                else seek (Z.max 0 (size f + s)) 0 f
    end = (set_loc a f, Ok a)).
  { subst a. destruct start as [s|].
    - destruct (Z.leb_spec 0 s); apply seek_reader; (assumption || lia).
    - rewrite <- Hloc at 2. rewrite set_loc_same. reflexivity. }
  assert (Hread : forall m,
             mode (fst (read m (set_loc a f))) = "rb"
             /\ closed (fst (read m (set_loc a f))) = false).
  { intros m. unfold read. cbn [mode closed loc size set_loc].
    rewrite Hmode, Hclosed. change (String.eqb "rb" "rb") with true.
    cbn [negb]. destruct (_ =? 0); cbn [fst mode closed set_loc]; auto. }
  rewrite with_file_reader; rewrite Hseek; cbn [tell size loc set_loc].
  - destruct end_ as [e|]; reflexivity.
  - destruct end_ as [e|]; apply Hread.
  - destruct end_ as [e|]; apply Hread.
Qed.

(** X19. [cat_file(path, start, end)] on a file that [open] hands over
    at position 0 returns the Python slice [content[start:end]], for
    bounds of either sign or omitted, provided that the end, read as
    Python reads it, is not before the start. *)
Theorem cat_file_slice (path : string) (start end_ : option Z)
    (h : option (handle token)) (f : file B)
    (Hopen : open_ path "rb" = Ok f) (Hf : opened_for_reading f)
    (Horder :
       match end_ with
       | None => True
       | Some e =>
           match start with
           | None => 0
           | Some s => if 0 <=? s then s else Z.max 0 (size f + s)
           end <= (if e <? 0 then size f + e else e)
       end) :
  cat_file cls _initiate_upload _upload_chunk open_ path start end_ h
  = (h, Ok (PyStr.slice (content f) start end_)).
Proof.
  destruct (cat_file_reads path start end_ h f Hopen Hf) as [Ha ->].
  destruct Hf as (Hmode & Hclosed & Hloc & Hsize). f_equal.
  set (a := match start with
            | None => 0
            | Some s => if 0 <=? s then s else Z.max 0 (size f + s)
            end) in *.
  assert (Hrem : remaining (set_loc a f) = PyStr.drop (Z.to_nat a) (content f)).
  { apply (remaining_whole (set_loc a f) Hsize). }
  destruct end_ as [e|].
  - rewrite (read_value _ (set_loc a f) Hmode Hclosed Ha).
    rewrite (proj2 (Z.ltb_ge _ 0)) by lia. cbn [snd]. rewrite Hrem.
    rewrite slice_in_order; rewrite <- Hsize; fold a; [reflexivity | exact Horder].
  - change (read None (set_loc a f)) with (read (Some (-1)) (set_loc a f)).
    rewrite (read_value _ (set_loc a f) Hmode Hclosed Ha).
    cbn [Z.ltb Z.compare snd]. rewrite Hrem, slice_from, <- Hsize.
    reflexivity.
Qed.

(** X20. When the end, read as Python reads it, lies before the start,
    [cat_file] does not return the empty slice: the negative length it
    passes to [read] means all that remains, so it returns
    [content[start:]]. *)
Theorem cat_file_end_before_start (path : string) (start : option Z) (e : Z)
    (h : option (handle token)) (f : file B)
    (Hopen : open_ path "rb" = Ok f) (Hf : opened_for_reading f)
    (Horder :
       (if e <? 0 then size f + e else e)
       < match start with
         | None => 0
         | Some s => if 0 <=? s then s else Z.max 0 (size f + s)
         end) :
  cat_file cls _initiate_upload _upload_chunk open_ path start (Some e) h
  = (h, Ok (PyStr.slice (content f) start None)).
Proof.
  destruct (cat_file_reads path start (Some e) h f Hopen Hf) as [Ha ->].
  destruct Hf as (Hmode & Hclosed & Hloc & Hsize). f_equal.
  set (a := match start with
            | None => 0
            | Some s => if 0 <=? s then s else Z.max 0 (size f + s)
            end) in *.
  rewrite (read_value _ (set_loc a f) Hmode Hclosed Ha).
  rewrite (proj2 (Z.ltb_lt _ 0)) by lia. cbn [snd].
  rewrite (remaining_whole (set_loc a f) Hsize), slice_from, <- Hsize.
  reflexivity.
Qed.

(** X21. [head(path, n)] returns the first [n] bytes, [content[:n]],
    for [n >= 0]; for a negative [n] it returns the whole content. *)
Theorem head_first_bytes (path : string) (n : Z)
    (h : option (handle token)) (f : file B)
    (Hopen : open_ path "rb" = Ok f) (Hf : opened_for_reading f) :
  (0 <= n ->
   head cls _initiate_upload _upload_chunk open_ path n h
   = (h, Ok (PyStr.slice (content f) None (Some n))))
  /\ (n < 0 ->
      head cls _initiate_upload _upload_chunk open_ path n h
      = (h, Ok (content f))).
Proof.
  destruct Hf as (Hmode & Hclosed & Hloc & Hsize).
  assert (Hloc0 : 0 <= loc f) by lia.
  assert (Hrem : remaining f = content f).
  { rewrite (remaining_whole f Hsize), Hloc. reflexivity. }
  assert (Hhead :
    head cls _initiate_upload _upload_chunk open_ path n h
    = (h, snd (read (Some n) f))).
  { unfold head. rewrite Hopen. apply with_file_reader;
      rewrite (read_value n f Hmode Hclosed Hloc0); cbn [fst mode closed set_loc];
      assumption. }
  rewrite Hhead, (read_value n f Hmode Hclosed Hloc0), Hrem. cbn [snd].
  split; intros Hn.
  - rewrite (proj2 (Z.ltb_ge n 0)) by lia. rewrite slice_to by lia.
    reflexivity.
  - rewrite (proj2 (Z.ltb_lt n 0)) by lia. reflexivity.
Qed.

(** X22. [tail(path, n)] returns the last [n] bytes, [content[-n:]], for
    [n > 0], which is the whole content when [n] exceeds the size; for
    [n <= 0] it returns nothing. *)
Theorem tail_last_bytes (path : string) (n : Z)
    (h : option (handle token)) (f : file B)
    (Hopen : open_ path "rb" = Ok f) (Hf : opened_for_reading f) :
  (0 < n ->
   tail cls _initiate_upload _upload_chunk open_ path n h
   = (h, Ok (PyStr.slice (content f) (Some (- n)) None)))
  /\ (size f <= n ->
      tail cls _initiate_upload _upload_chunk open_ path n h
      = (h, Ok (content f)))
  /\ (n <= 0 ->
      tail cls _initiate_upload _upload_chunk open_ path n h = (h, Ok "")).
Proof.
  destruct Hf as (Hmode & Hclosed & Hloc & Hsize).
  pose proof (len_nonneg (content f)) as Hlen. rewrite <- Hsize in Hlen.
  set (a := size f + Z.max (- n) (- size f)).
  assert (Ha : 0 <= a) by (subst a; lia).
  assert (Htail :
    tail cls _initiate_upload _upload_chunk open_ path n h
    = (h, Ok (PyStr.drop (Z.to_nat a) (content f)))).
  { unfold tail. rewrite Hopen.
    rewrite with_file_reader;
      rewrite (seek_end_reader _ f Hmode) by lia; fold a;
      change (read None (set_loc a f)) with (read (Some (-1)) (set_loc a f));
      rewrite (read_value _ (set_loc a f) Hmode Hclosed Ha);
      cbn [Z.ltb Z.compare fst snd mode closed set_loc]; try assumption.
    rewrite (remaining_whole (set_loc a f) Hsize). reflexivity. }
  rewrite Htail. split; [|split]; intros Hn; do 2 f_equal.
  - rewrite slice_from, <- Hsize. rewrite (proj2 (Z.leb_gt 0 (- n))) by lia.
    f_equal. subst a. lia.
  - replace a with 0 by (subst a; lia). reflexivity.
  - apply drop_all. subst a. rewrite Hsize in *. unfold PyStr.len in *. lia.
Qed.

End file_access_facts.

Lemma cat_file_slice_witness :
  cat_file memfs accept_upload accept_chunk sample_open "a/x" (Some (-4))
    (Some 5) (Some sample_handle)
  = (Some sample_handle, Ok (PyStr.slice (content sample_reader) (Some (-4)) (Some 5))).
Proof.
  apply (cat_file_slice memfs accept_upload accept_chunk sample_open "a/x"
           (Some (-4)) (Some 5) (Some sample_handle) sample_reader);
    [reflexivity | repeat split | simpl; lia].
Defined.

Lemma cat_file_end_before_start_witness :
  cat_file memfs accept_upload accept_chunk sample_open "a/x" (Some 4)
    (Some 2) (Some sample_handle)
  = (Some sample_handle, Ok (PyStr.slice (content sample_reader) (Some 4) None)).
Proof.
  apply (cat_file_end_before_start memfs accept_upload accept_chunk sample_open
           "a/x" (Some 4) 2 (Some sample_handle) sample_reader);
    [reflexivity | repeat split | simpl; lia].
Defined.

Lemma head_first_bytes_witness :
  (0 <= 4 ->
   head memfs accept_upload accept_chunk sample_open "a/x" 4 (Some sample_handle)
   = (Some sample_handle, Ok (PyStr.slice (content sample_reader) None (Some 4))))
  /\ (4 < 0 ->
      head memfs accept_upload accept_chunk sample_open "a/x" 4
        (Some sample_handle)
      = (Some sample_handle, Ok (content sample_reader))).
Proof.
  apply (head_first_bytes memfs accept_upload accept_chunk sample_open "a/x" 4
           (Some sample_handle) sample_reader);
    [reflexivity | repeat split].
Defined.

Lemma tail_last_bytes_witness :
  (0 < 4 ->
   tail memfs accept_upload accept_chunk sample_open "a/x" 4 (Some sample_handle)
   = (Some sample_handle, Ok (PyStr.slice (content sample_reader) (Some (- 4)) None)))
  /\ (size sample_reader <= 4 ->
      tail memfs accept_upload accept_chunk sample_open "a/x" 4
        (Some sample_handle)
      = (Some sample_handle, Ok (content sample_reader)))
  /\ (4 <= 0 ->
      tail memfs accept_upload accept_chunk sample_open "a/x" 4
        (Some sample_handle)
      = (Some sample_handle, Ok "")).
Proof.
  apply (tail_last_bytes memfs accept_upload accept_chunk sample_open "a/x" 4
           (Some sample_handle) sample_reader);
    [reflexivity | repeat split].
Defined.

(** The six bytes [abXYcd]: the last four but one, the tail from 4 on
    when the end is before the start, and head and tail. *)
Example whole_file_reads :
  snd (cat_file memfs accept_upload accept_chunk sample_open "a/x" (Some (-4))
         (Some 5) (Some sample_handle)) = Ok "XYc"
  /\ snd (cat_file memfs accept_upload accept_chunk sample_open "a/x" (Some 4)
            (Some 2) (Some sample_handle)) = Ok "cd"
  /\ snd (head memfs accept_upload accept_chunk sample_open "a/x" 4
            (Some sample_handle)) = Ok "abXY"
  /\ snd (tail memfs accept_upload accept_chunk sample_open "a/x" 4
            (Some sample_handle)) = Ok "XYcd"
  /\ snd (tail memfs accept_upload accept_chunk sample_open "a/x" 0
            (Some sample_handle)) = Ok "".
Proof. repeat split. Qed.

(** ** Writing: what is buffered and what is uploaded *)

Lemma concat_cons (d : string) (ds : list string) :
  String.concat "" (d :: ds) = d ++ String.concat "" ds.
Proof.
  destruct ds as [|d' ds]; cbn [String.concat].
  - symmetry. apply append_empty_r.
  - reflexivity.
Qed.

Lemma write_mode_not_rb {B} (f : file B) :
  write_mode f = true -> String.eqb (mode f) "rb" = false.
Proof.
  unfold write_mode. intros Hm.
  destruct (String.eqb_spec (mode f) "rb") as [E|]; [|reflexivity].
  rewrite E in Hm. discriminate.
Qed.

Section accounting.
Context {B token : Type}.
Context (cls : fs_class).
Context (_initiate_upload : file B -> res B).
Context (_upload_chunk : bool -> file B -> res (bool * B)).

Lemma flush_accounted (force : bool) (f : file B) :
  accounted f ->
  accounted (fst (flush _initiate_upload _upload_chunk force f)).
Proof.
  intros [Hm Hloc]. unfold flush.
  destruct (closed f); [split; assumption|].
  destruct force; cbn [andb negb]; rewrite Hm; cbn [negb].
  - destruct (forced f); [split; assumption|].
    change (write_mode (set_forced true f)) with (write_mode f).
    rewrite Hm. cbn [negb offset set_forced]. unfold uploaded in Hloc.
    destruct (offset f) as [o|] eqn:Hoff; break_upload Hoff; account.
  - destruct (_ <? _); [split; assumption|]. unfold uploaded in Hloc.
    destruct (offset f) as [o|] eqn:Hoff; break_upload Hoff; account.
Qed.

Lemma write_accounted (data : string) (f : file B) :
  accounted f ->
  accounted (fst (write _initiate_upload _upload_chunk data f)).
Proof.
  intros [Hm Hloc]. unfold write. rewrite Hm. cbn [negb].
  destruct (closed f); [split; assumption|].
  destruct (forced f); [split; assumption|].
  assert (Hacc : accounted
            (set_loc (loc (set_buffer (buffer f ++ data) f) + PyStr.len data)
               (set_buffer (buffer f ++ data) f))).
  { split; [exact Hm|]. unfold uploaded in *.
    cbn [loc offset buffer set_loc set_buffer]. rewrite len_append. lia. }
  cbv zeta. destruct (_ <=? _); [|exact Hacc].
  pose proof (flush_accounted false _ Hacc) as Hflush.
  destruct (flush _ _ false _) as [f' [u|e]]; exact Hflush.
Qed.

Lemma close_accounted (f : file B) (fs : option (handle token)) :
  accounted f ->
  accounted (fst (fst (close cls _initiate_upload _upload_chunk f fs))).
Proof.
  intros Hacc. unfold close. destruct (closed f); [exact Hacc|].
  rewrite (write_mode_not_rb f (proj1 Hacc)).
  destruct (forced f); cbn [negb].
  - exact Hacc.
  - pose proof (flush_accounted true f Hacc) as Hflush.
    destruct (flush _ _ true f) as [f' [u|e]]; exact Hflush.
Qed.

Lemma run_op_accounted (op : file_op) (st : file B * option (handle token)) :
  accounted (fst st) ->
  accounted (fst (run_op cls _initiate_upload _upload_chunk op st)).
Proof.
  destruct st as [f fs]. intros Hacc. destruct op as [data|force| |];
    cbn [run_op fst].
  - apply write_accounted, Hacc.
  - apply flush_accounted, Hacc.
  - exact Hacc.
  - pose proof (close_accounted f fs Hacc) as Hclose.
    destruct (close _ _ _ f fs) as [[f' fs'] r]. exact Hclose.
Qed.

(** X23. In write mode no byte is lost between the buffer and the
    upload: if the position equals the bytes uploaded ([offset]) plus
    the bytes buffered, it still does after any sequence of writes,
    flushes, tells and closes, whatever the backend answers (chunk
    accepted, chunk refused, exception). *)
Theorem position_is_uploaded_plus_buffered
    (ops : list file_op) (f : file B) (fs : option (handle token))
    (Hmode : write_mode f = true)
    (Hloc : loc f = uploaded f + PyStr.len (buffer f)) :
  let f' := fst (run_ops cls _initiate_upload _upload_chunk ops (f, fs)) in
  write_mode f' = true /\ loc f' = uploaded f' + PyStr.len (buffer f').
Proof.
  intros f'. subst f'.
  assert (Hacc : accounted (fst (f, fs))) by (split; assumption).
  generalize dependent (f, fs). clear. intros st Hacc. revert st Hacc.
  induction ops as [|op ops IH]; intros st Hacc; [exact Hacc|].
  apply (IH _ (run_op_accounted op st Hacc)).
Qed.

(** X25. A [close] that returns normally leaves the file closed, and
    closing again changes nothing: neither the file nor the
    filesystem's pending invalidations. *)
Theorem close_twice (f f1 : file B) (fs fs1 : option (handle token))
    (Hclose : close cls _initiate_upload _upload_chunk f fs = (f1, fs1, Ok tt)) :
  closed f1 = true
  /\ close cls _initiate_upload _upload_chunk f1 fs1 = (f1, fs1, Ok tt).
Proof.
  assert (Hclosed : closed f1 = true).
  { unfold close in Hclose. destruct (closed f) eqn:Hc.
    - injection Hclose as <- _. exact Hc.
    - destruct (String.eqb (mode f) "rb").
      + injection Hclose as <- _. reflexivity.
      + destruct (if negb (forced f) then _ else _) as [f' [u|e]];
          [|discriminate]. injection Hclose as <- _. reflexivity. }
  split; [exact Hclosed|]. unfold close. rewrite Hclosed. reflexivity.
Qed.

(** X26. A [close] that fails in write mode has already set [forced];
    closing again then returns normally without calling the backend
    (it gives the same with any other backend), so what was in the
    buffer is never uploaded. *)
Theorem close_after_failed_close
    (f f1 : file B) (fs fs1 : option (handle token)) (e : exn)
    (Hmode : write_mode f = true)
    (Hclose : close cls _initiate_upload _upload_chunk f fs = (f1, fs1, Raise e)) :
  buffer f1 = buffer f
  /\ exists f2 fs2,
       (forall (initiate' : file B -> res B)
               (chunk' : bool -> file B -> res (bool * B)),
          close cls initiate' chunk' f1 fs1 = (f2, fs2, Ok tt))
       /\ closed f2 = true /\ buffer f2 = buffer f /\ upload f2 = upload f1.
Proof.
  unfold close in Hclose. destruct (closed f) eqn:Hc; [discriminate|].
  rewrite (write_mode_not_rb f Hmode) in Hclose.
  destruct (forced f) eqn:Hforced; [discriminate|]. cbn [negb] in Hclose.
  assert (Hflush :
    fst (flush _initiate_upload _upload_chunk true f) = f1
    /\ fs1 = fs
    /\ snd (flush _initiate_upload _upload_chunk true f) = Raise e).
  { destruct (flush _ _ true f) as [f' [u|e']]; [discriminate|].
    injection Hclose as <- <- <-. auto. }
  destruct Hflush as (Hf1 & -> & Hraise).
  assert (Hstate : write_mode f1 = true /\ forced f1 = true
                   /\ buffer f1 = buffer f).
  { subst f1. revert Hraise. unfold flush. rewrite Hc, Hmode, Hforced.
    cbn [negb andb].
    change (write_mode (set_forced true f)) with (write_mode f).
    rewrite Hmode. cbn [negb andb offset set_forced].
    destruct (offset f) as [o|]; break_flush; cbn [snd];
      try discriminate; intros _; auto. }
  destruct Hstate as (Hm1 & Hforced1 & Hbuf). split; [exact Hbuf|].
  destruct (closed f1) eqn:Hc1.
  - exists f1, fs. split; [|auto].
    intros initiate' chunk'. unfold close. rewrite Hc1. reflexivity.
  - eexists (set_closed true f1), _. split; [|auto].
    intros initiate' chunk'. unfold close.
    rewrite Hc1, (write_mode_not_rb f1 Hm1), Hforced1. cbn [negb].
    reflexivity.
Qed.

End accounting.

Lemma position_is_uploaded_plus_buffered_witness :
  let f' := fst (run_ops memfs keep_initiate keep_chunk
                   [OpWrite "abcde"; OpWrite "f"; OpFlush false; OpClose]
                   (new_writer "a/x" 4, Some sample_handle)) in
  write_mode f' = true /\ loc f' = uploaded f' + PyStr.len (buffer f').
Proof.
  apply (position_is_uploaded_plus_buffered memfs keep_initiate keep_chunk
           [OpWrite "abcde"; OpWrite "f"; OpFlush false; OpClose]
           (new_writer "a/x" 4) (Some sample_handle)); reflexivity.
Defined.

Lemma close_twice_witness :
  closed (set_closed true sample_reader) = true
  /\ close memfs accept_upload accept_chunk (set_closed true sample_reader)
       (Some sample_handle)
     = (set_closed true sample_reader, Some sample_handle, Ok tt).
Proof.
  apply (close_twice memfs accept_upload accept_chunk sample_reader
           (set_closed true sample_reader) (Some sample_handle)
           (Some sample_handle)).
  reflexivity.
Defined.

Lemma close_after_failed_close_witness :
  buffer (set_forced true (set_offset (Some 0) half_written))
  = buffer half_written
  /\ exists f2 fs2,
       (forall (initiate' : file (list string) -> res (list string))
               (chunk' : bool -> file (list string)
                         -> res (bool * list string)),
          close memfs initiate' chunk'
            (set_forced true (set_offset (Some 0) half_written))
            (Some sample_handle)
          = (f2, fs2, Ok tt))
       /\ closed f2 = true /\ buffer f2 = buffer half_written
       /\ upload f2
          = upload (set_forced true (set_offset (Some 0) half_written)).
Proof.
  apply (close_after_failed_close memfs keep_initiate refuse_chunk half_written
           (set_forced true (set_offset (Some 0) half_written))
           (Some sample_handle) (Some sample_handle) (OSError "upload failed"));
    reflexivity.
Defined.

(** ** The chunks a backend is given *)

Section chunks.
Context {token : Type}.
Context (cls : fs_class).
Context (bs : Z).

Lemma write_writing (w d : string) (f : file (list string)) :
  0 < bs -> writing bs w f ->
  writing bs (w ++ d) (fst (write keep_initiate keep_chunk d f)).
Proof.
  intros Hbs (Hmode & Hclosed & Hforced & Hblock & Hw & Hbig & Hsmall & Hloc).
  unfold write, write_mode. rewrite Hmode, Hclosed, Hforced.
  change (negb (String.eqb "wb" "wb" || String.eqb "wb" "ab")) with false.
  cbv iota zeta. cbn [fblocksize buffer loc set_loc set_buffer]. rewrite Hblock.
  destruct (Z.leb_spec bs (PyStr.len (buffer f ++ d))) as [Hfull|Hpart].
  - unfold flush, write_mode.
    cbn [closed mode forced fblocksize buffer offset set_loc set_buffer].
    rewrite Hmode, Hclosed, Hblock.
    change (negb (String.eqb "wb" "wb" || String.eqb "wb" "ab")) with false.
    cbn [andb negb]. rewrite (proj2 (Z.ltb_ge _ _) Hfull).
    unfold keep_initiate, keep_chunk.
    destruct (offset f) as [o|];
      cbn [fst upload buffer set_upload set_offset set_loc set_buffer];
      (repeat split; cbn [mode closed forced fblocksize upload buffer loc
                          set_upload set_offset set_loc set_buffer];
       try assumption; try lia;
       [ rewrite concat_snoc, append_empty_r, <- Hw; symmetry; apply append_assoc
       | apply Forall_app; split; [exact Hbig | repeat constructor; exact Hfull]
       | rewrite len_append; lia ]).
  - cbn [fst]. repeat split;
      cbn [mode closed forced fblocksize upload buffer loc set_loc set_buffer];
      try assumption.
    + rewrite <- Hw. symmetry. apply append_assoc.
    + rewrite len_append. lia.
Qed.

Lemma writes_writing (ds : list string) (w : string) (f : file (list string))
    (fs : option (handle token)) :
  0 < bs -> writing bs w f ->
  exists f',
    run_ops cls keep_initiate keep_chunk (map OpWrite ds) (f, fs) = (f', fs)
    /\ writing bs (w ++ String.concat "" ds) f'.
Proof.
  intros Hbs. revert w f. induction ds as [|d ds IH]; intros w f Hf.
  - exists f. split; [reflexivity|]. cbn [String.concat].
    rewrite append_empty_r. exact Hf.
  - destruct (IH (w ++ d) _ (write_writing w d f Hbs Hf)) as (f' & Hrun & Hf').
    exists f'. split; [exact Hrun|].
    rewrite concat_cons, <- append_assoc. exact Hf'.
Qed.

(** X24. Writing any sequence of byte strings to a new [wb] file and
    closing it hands the backend chunks that, put together, are exactly
    the bytes written, in order. Every chunk but the last has at least
    [blocksize] bytes; the last one, sent by [close], has fewer and may
    be empty. The file ends closed with an empty buffer and its position
    at the number of bytes written. *)
Theorem upload_chunks (path : string) (ds : list string)
    (fs : option (handle token))
    (Hbs : 0 < bs) :
  let f := fst (run_ops cls keep_initiate keep_chunk
                  (map OpWrite ds ++ [OpClose]) (new_writer path bs, fs)) in
  closed f = true
  /\ buffer f = ""
  /\ loc f = PyStr.len (String.concat "" ds)
  /\ String.concat "" (upload f) = String.concat "" ds
  /\ exists chunks final,
       upload f = (chunks ++ [final])%list
       /\ Forall (fun c => bs <= PyStr.len c) chunks
       /\ PyStr.len final < bs.
Proof.
  intros f. subst f. unfold run_ops. rewrite fold_left_app.
  fold (run_ops cls keep_initiate keep_chunk (map OpWrite ds)
          (new_writer path bs, fs)).
  assert (Hnew : writing bs "" (new_writer path bs)).
  { repeat split; try reflexivity; [constructor | exact Hbs]. }
  destruct (writes_writing ds "" _ fs Hbs Hnew) as (f' & -> & Hf').
  destruct Hf' as (Hmode & Hclosed & Hforced & Hblock & Hw & Hbig & Hsmall & Hloc).
  change ("" ++ String.concat "" ds) with (String.concat "" ds) in *.
  cbn [fold_left run_op]. unfold close, flush, write_mode.
  rewrite Hclosed, Hmode, Hforced.
  change (String.eqb "wb" "rb") with false.
  change (negb (String.eqb "wb" "wb" || String.eqb "wb" "ab")) with false.
  cbn [negb andb mode set_forced]. rewrite Hmode.
  change (negb (String.eqb "wb" "wb" || String.eqb "wb" "ab")) with false.
  cbv iota. unfold keep_initiate, keep_chunk. cbn [offset set_forced].
  destruct (offset f') as [o|]; destruct fs as [h|];
    cbn [fst closed upload buffer loc offset set_upload set_offset set_loc
         set_buffer set_forced set_closed];
    (split; [reflexivity|]; split; [reflexivity|]; split; [exact Hloc|];
     split; [rewrite concat_snoc; exact Hw|];
     exists (upload f'), (buffer f'); auto).
Qed.

End chunks.

Lemma upload_chunks_witness :
  let f := fst (run_ops memfs keep_initiate keep_chunk
                  (map OpWrite ["ab"; "cde"; "f"; "ghijkl"] ++ [OpClose])
                  (new_writer "a/x" 4, Some sample_handle)) in
  closed f = true
  /\ buffer f = ""
  /\ loc f = PyStr.len (String.concat "" ["ab"; "cde"; "f"; "ghijkl"])
  /\ String.concat "" (upload f) = String.concat "" ["ab"; "cde"; "f"; "ghijkl"]
  /\ exists chunks final,
       upload f = (chunks ++ [final])%list
       /\ Forall (fun c => 4 <= PyStr.len c) chunks
       /\ PyStr.len final < 4.
Proof.
  apply (upload_chunks memfs 4 "a/x" ["ab"; "cde"; "f"; "ghijkl"]
           (Some sample_handle)).
  lia.
Defined.

(** Twelve bytes in blocks of four, written in four pieces: the chunks
    are not cut at the block size, and [close] sends an empty one. *)
Example upload_chunks_value :
  upload (fst (run_ops memfs keep_initiate keep_chunk
                 (map OpWrite ["ab"; "cde"; "f"; "ghijkl"] ++ [OpClose])
                 (new_writer "a/x" 4, Some sample_handle)))
  = ["abcde"; "fghijkl"; ""].
Proof. reflexivity. Qed.

(** ** Lines *)

Section one_byte_separator.
Context (c : ascii).
Local Abbreviation sep := (String c EmptyString).

Lemma split_cons (x : ascii) (s : string) :
  split (String x s) sep
  = if Ascii.eqb c x then "" :: split s sep
    else match split s sep with
         | piece :: pieces => String x piece :: pieces
         | [] => [String x ""]
         end.
Proof.
  unfold split. cbn [split_from String.prefix String.length Nat.sub].
  destruct (ascii_dec c x) as [<-|Hne].
  - rewrite Ascii.eqb_refl, prefix_empty. reflexivity.
  - rewrite (proj2 (Ascii.eqb_neq c x) Hne). reflexivity.
Qed.

Lemma split_not_nil (s : string) : split s sep <> [].
Proof.
  destruct s as [|x s]; [discriminate|]. rewrite split_cons.
  destruct (Ascii.eqb c x); [discriminate|].
  destruct (split s sep); discriminate.
Qed.

(** The pieces hold no separator. *)
Lemma split_pieces (s : string) :
  Forall (fun piece => PyStr.mem_char c piece = false) (split s sep).
Proof.
  induction s as [|x s IH]; [repeat constructor|]. rewrite split_cons.
  destruct (Ascii.eqb c x) eqn:Hx.
  - constructor; [reflexivity | exact IH].
  - destruct (split s sep) as [|piece pieces]; [repeat constructor|].
    + cbn [PyStr.mem_char]. rewrite Hx. reflexivity.
    + apply Forall_cons in IH as [Hpiece Hpieces]. constructor; [|exact Hpieces].
      cbn [PyStr.mem_char]. rewrite Hx. exact Hpiece.
Qed.

(** Joining the pieces with the separator gives the string back. *)
Lemma split_join (s : string) : String.concat sep (split s sep) = s.
Proof.
  induction s as [|x s IH]; [reflexivity|]. rewrite split_cons.
  pose proof (split_not_nil s) as Hne.
  destruct (Ascii.eqb_spec c x) as [<-|Hx].
  - destruct (split s sep) as [|piece pieces]; [contradiction|].
    cbn [String.concat] in *. rewrite IH. reflexivity.
  - destruct (split s sep) as [|piece pieces]; [contradiction|].
    destruct pieces as [|piece' pieces]; cbn [String.concat] in *.
    + rewrite IH. reflexivity.
    + rewrite append_cons, IH. reflexivity.
Qed.

Lemma join_snoc (pieces : list string) (z : string) :
  String.concat sep (pieces ++ [z])
  = String.concat "" (map (fun l => l ++ sep) pieces) ++ z.
Proof.
  induction pieces as [|piece pieces IH]; [reflexivity|].
  cbn [app map]. rewrite concat_cons, append_assoc, <- IH.
  destruct (pieces ++ [z])%list eqn:Hp; [destruct pieces; discriminate|].
  cbn [String.concat]. symmetry. apply append_assoc.
Qed.

Lemma endswith_byte (s : string) : PyStr.endswith s sep = ends_with_byte c s.
Proof.
  induction s as [|x s IH]; [reflexivity|].
  destruct s as [|y s].
  - unfold PyStr.endswith. cbn. destruct (Ascii.eqb x c); reflexivity.
  - change (ends_with_byte c (String x (String y s)))
      with (ends_with_byte c (String y s)).
    rewrite <- IH. unfold PyStr.endswith.
    cbn [String.length Nat.leb Nat.sub PyStr.drop].
    rewrite ?Nat.sub_0_r. reflexivity.
Qed.

Lemma ends_last_piece (s : string) :
  ends_with_byte c s = true -> List.last (split s sep) "" = "".
Proof.
  induction s as [|x s IH]; [discriminate|]. intros Hends.
  rewrite split_cons. pose proof (split_not_nil s) as Hne.
  pose proof (split_join s) as Hjoin.
  destruct s as [|y s].
  - cbn in Hends. rewrite Ascii.eqb_sym, Hends. reflexivity.
  - change (ends_with_byte c (String x (String y s)))
      with (ends_with_byte c (String y s)) in Hends.
    specialize (IH Hends).
    destruct (split (String y s) sep) as [|piece pieces]; [contradiction|].
    destruct (Ascii.eqb c x).
    + exact IH.
    + destruct pieces as [|piece' pieces]; [|exact IH].
      cbn in IH, Hjoin. subst piece. discriminate.
Qed.

End one_byte_separator.

Section lines.
Context {B : Type}.

(** X27. In read mode [readlines] returns lines that put together are
    exactly the bytes that remained: the lines are bodies without a
    newline, each followed by one newline, and then at most one last
    line without newline. At the end of the file the result is not the
    empty list but the one line [b""]. *)
Theorem readlines_join (f : file B)
    (Hmode : mode f = "rb") (Hopen : closed f = false) (Hloc : 0 <= loc f) :
  exists lines,
    readlines f = (set_loc (loc f + PyStr.len (remaining f)) f, Ok lines)
    /\ String.concat "" lines = remaining f
    /\ (exists bodies rest,
          lines = (map (fun l => (l ++ newline)%string) bodies ++ rest)%list
          /\ Forall (fun l => PyStr.mem_char (ascii_of_nat 10) l = false)
               (bodies ++ rest)
          /\ (length rest <= 1)%nat)
    /\ (remaining f = "" -> lines = [""]).
Proof.
  set (data := remaining f).
  set (pieces := split data newline).
  assert (Hread : read None f
                  = (set_loc (loc f + PyStr.len data) f, Ok data)).
  { change (read None f) with (read (Some (-1)) f).
    rewrite (read_value _ f Hmode Hopen Hloc). reflexivity. }
  assert (Hne : pieces <> []) by apply split_not_nil.
  assert (Hpieces : pieces = (removelast pieces ++ [List.last pieces ""])%list)
    by (apply app_removelast_last, Hne).
  assert (Hjoin : String.concat "" (map (fun l => l ++ newline)
                                      (removelast pieces))
                  ++ List.last pieces "" = data).
  { rewrite <- (join_snoc (ascii_of_nat 10)), <- Hpieces.
    apply split_join. }
  assert (Hno : Forall (fun l => PyStr.mem_char (ascii_of_nat 10) l = false)
                  (removelast pieces ++ [List.last pieces ""])).
  { rewrite <- Hpieces. apply split_pieces. }
  unfold readlines. rewrite Hread. fold pieces.
  unfold newline at 1. rewrite endswith_byte.
  destruct (ends_with_byte (ascii_of_nat 10) data) eqn:Hends.
  - pose proof (ends_last_piece _ data Hends) as Hlast.
    change (List.last pieces "" = "") in Hlast.
    rewrite Hlast, append_empty_r in Hjoin.
    eexists. split; [reflexivity|]. split; [exact Hjoin|]. split.
    + exists (removelast pieces), []. rewrite !app_nil_r.
      split; [reflexivity|]. split; [|cbn; lia].
      apply Forall_app in Hno as [Hno _]. exact Hno.
    + intros Hnil. rewrite Hnil in Hends. discriminate.
  - eexists. split; [reflexivity|]. split; [|split].
    + rewrite concat_snoc. exact Hjoin.
    + exists (removelast pieces), [List.last pieces ""].
      split; [reflexivity|]. split; [exact Hno | cbn; lia].
    + intros Hnil. subst pieces. rewrite Hnil. reflexivity.
Qed.

End lines.

Lemma readlines_join_witness :
  exists lines,
    readlines (set_loc 6 sample_reader)
    = (set_loc (loc (set_loc 6 sample_reader)
                + PyStr.len (remaining (set_loc 6 sample_reader)))
         (set_loc 6 sample_reader), Ok lines)
    /\ String.concat "" lines = remaining (set_loc 6 sample_reader)
    /\ (exists bodies rest,
          lines = (map (fun l => (l ++ newline)%string) bodies ++ rest)%list
          /\ Forall (fun l => PyStr.mem_char (ascii_of_nat 10) l = false)
               (bodies ++ rest)
          /\ (length rest <= 1)%nat)
    /\ (remaining (set_loc 6 sample_reader) = "" -> lines = [""]).
Proof.
  apply (readlines_join (set_loc 6 sample_reader));
    [reflexivity | reflexivity | simpl; lia].
Defined.

(** Two lines and an unfinished third; a final newline gives no empty
    last line. *)
Example split_lines :
  split ("ab" ++ newline ++ newline ++ "c") newline = ["ab"; ""; "c"]
  /\ split ("ab" ++ newline) newline = ["ab"; ""]
  /\ split "a--b-" "--" = ["a"; "b-"].
Proof. repeat split. Qed.

(** ** More on the instance cache *)

Lemma odict_get_elem {K V : Type} `{EqDecision K} (k : K) (v : V)
    (d : odict K V) :
  odict_get k d = Some v -> (k, v) ∈ d.
Proof.
  induction d as [|[k' v'] d IH]; [discriminate|]. cbn [odict_get].
  destruct (decide (k = k')) as [->|Hne].
  - intros [= ->]. apply elem_of_cons. left. reflexivity.
  - intros Hget. apply elem_of_cons. right. apply IH, Hget.
Qed.

Lemma odict_set_Forall {K V : Type} `{EqDecision K} (P : K * V -> Prop)
    (k : K) (v : V) (d : odict K V) :
  Forall P d -> P (k, v) -> Forall P (odict_set k v d).
Proof.
  intros Hd Hkv. induction Hd as [|[k' v'] d Hx Hd IH]; cbn [odict_set].
  - repeat constructor. exact Hkv.
  - destruct (decide (k = k')); constructor; assumption.
Qed.

Section instance_cache_more_facts.
Context {token : Type} `{EqDecision token}.
Context (cls : fs_class).
Context (tokenize :
  fs_class -> Z -> Z -> list pyval -> list pyval -> odict string pyval -> token).
Context (apply_config : fs_class -> odict string pyval -> odict string pyval).
Context (extra_tokens : list pyval).

Local Abbreviation call := (__call__ cls tokenize apply_config extra_tokens).
Local Abbreviation current' := (current cls tokenize apply_config extra_tokens).

(** X28. Constructions never lose or renumber objects: one call leaves
    the objects built before in place, adding at most one; if every
    cached object was one that exists, this still holds afterwards and
    the object returned exists. *)
Theorem call_keeps_objects (proc : process) (args : list pyval)
    (kwargs : odict string pyval) (w : world token)
    (Hsound : cache_sound w) :
  let w1 := fst (call proc args kwargs w) in
  let obj := snd (call proc args kwargs w) in
  cache_sound w1
  /\ (obj < length (objects w1))%nat
  /\ exists built, objects w1 = (objects w ++ built)%list
                   /\ (length built <= 1)%nat.
Proof.
  unfold __call__.
  destruct (odict_pop "skip_instance_cache" (VBool false)
              (apply_config cls kwargs)) as [skip kw].
  set (tok := tokenize cls (_pid w) (get_ident proc) args extra_tokens
                (apply_config cls kwargs)).
  set (w0 := if bool_decide (getpid proc <> _pid w)
             then {| objects := objects w; _cache := []; _pid := getpid proc |}
             else w).
  assert (Hobjects : objects w0 = objects w)
    by (subst w0; destruct (bool_decide _); reflexivity).
  assert (Hsound0 : cache_sound w0).
  { subst w0. destruct (bool_decide _); [constructor | exact Hsound]. }
  clearbody w0 tok.
  destruct (if negb (truthy skip) && cachable cls
            then odict_get tok (_cache w0) else None) as [obj|] eqn:Hget;
    cbn [fst snd].
  - split; [exact Hsound0|]. split.
    + destruct (negb (truthy skip) && cachable cls); [|discriminate].
      apply odict_get_elem in Hget. unfold cache_sound in Hsound0.
      rewrite Forall_forall in Hsound0. apply (Hsound0 _ Hget).
    + exists []. rewrite app_nil_r. split; [exact Hobjects | cbn; lia].
  - assert (Hgrow : forall kv : token * nat,
               (snd kv < length (objects w0))%nat ->
               (snd kv < length (objects w0 ++ [new_handle tok args kw]))%nat).
    { intros kv Hkv. rewrite length_app. cbn. lia. }
    assert (Hnew : (length (objects w0)
                    < length (objects w0 ++ [new_handle tok args kw]))%nat).
    { rewrite length_app. cbn. lia. }
    split; [|split].
    + destruct (cachable cls && negb (truthy skip));
        unfold cache_sound; cbn [objects _cache].
      * apply odict_set_Forall; [|exact Hnew].
        eapply Forall_impl; [exact Hsound0 | exact Hgrow].
      * eapply Forall_impl; [exact Hsound0 | exact Hgrow].
    + destruct (cachable cls && negb (truthy skip)); cbn [objects]; exact Hnew.
    + exists [new_handle tok args kw].
      destruct (cachable cls && negb (truthy skip)); cbn [objects];
        rewrite Hobjects; split; (reflexivity || cbn; lia).
Qed.

(** X29. After [clear_instance_cache] every construction builds a new
    object, also with arguments that had been used before; the objects
    built earlier stay as they are. *)
Theorem call_after_clear (proc : process) (args : list pyval)
    (kwargs : odict string pyval) (w : world token) :
  snd (call proc args kwargs (clear_instance_cache w)) = length (objects w)
  /\ exists h,
       objects (fst (call proc args kwargs (clear_instance_cache w)))
       = (objects w ++ [h])%list.
Proof.
  unfold __call__, clear_instance_cache. cbn [objects _cache _pid].
  destruct (odict_pop "skip_instance_cache" (VBool false)
              (apply_config cls kwargs)) as [skip kw].
  destruct (bool_decide (getpid proc <> _pid w)); cbn [objects _cache _pid];
    destruct (negb (truthy skip) && cachable cls);
    destruct (cachable cls && negb (truthy skip));
    cbn [odict_get fst snd objects]; eauto.
Qed.

(** X30. On a cachable class without [skip_instance_cache] among the
    configured defaults, [current] is stable: once it has returned an
    object it returns the same one again and builds nothing, in this
    process and in any other, since it never compares process ids when
    the cache is not empty. *)
Theorem current_is_stable (proc proc' : process) (w : world token)
    (Hcachable : cachable cls = true)
    (Hskip : skips cls apply_config [] = false) :
  current' proc' (fst (current' proc w))
  = (fst (current' proc w), snd (current' proc w)).
Proof.
  unfold current. destruct (_cache w) as [|kv kvs] eqn:Hcache.
  - unfold skips in Hskip. unfold __call__.
    destruct (odict_pop "skip_instance_cache" (VBool false)
                (apply_config cls [])) as [skip kw].
    cbn [fst] in Hskip. rewrite Hskip, Hcachable. cbn [negb andb].
    assert (Hempty :
      _cache (if bool_decide (getpid proc <> _pid w)
              then {| objects := objects w; _cache := [];
                      _pid := getpid proc |}
              else w) = []).
    { destruct (bool_decide _); [reflexivity | exact Hcache]. }
    rewrite Hempty. cbn [odict_get odict_set fst snd _cache List.last].
    reflexivity.
  - cbn [fst snd]. rewrite Hcache. reflexivity.
Qed.

End instance_cache_more_facts.

Lemma call_keeps_objects_witness :
  let w1 := fst (sample_call parent_process [] fresh_world) in
  let obj := snd (sample_call parent_process [] fresh_world) in
  cache_sound w1
  /\ (obj < length (objects w1))%nat
  /\ exists built, objects w1 = (objects fresh_world ++ built)%list
                   /\ (length built <= 1)%nat.
Proof.
  apply (call_keeps_objects AbstractFileSystem sample_tokenize no_config []
           parent_process [] [] fresh_world).
  constructor.
Defined.

Lemma current_is_stable_witness :
  current AbstractFileSystem sample_tokenize no_config [] child_process
    (fst (current AbstractFileSystem sample_tokenize no_config []
            parent_process fresh_world))
  = (fst (current AbstractFileSystem sample_tokenize no_config []
            parent_process fresh_world),
     snd (current AbstractFileSystem sample_tokenize no_config []
            parent_process fresh_world)).
Proof.
  apply (current_is_stable AbstractFileSystem sample_tokenize no_config []
           parent_process child_process fresh_world); reflexivity.
Defined.

(** [readline] on a file without newline reads to the end; [readinto]
    fills the front of the buffer and leaves the rest. *)
Example readline_readinto :
  readline 5 sample_reader = Some (set_loc 6 sample_reader, Ok "abXYcd")
  /\ readinto "........" (set_loc 4 sample_reader)
     = (set_loc 6 sample_reader, Ok ("cd......", 2))
  /\ readinto "..." sample_reader
     = (set_loc 3 sample_reader, Ok ("abX", 3)).
Proof. repeat split. Qed.
